(** * qmempool: a quick queue based mempool (kernel/mm/qmempool.c)

    A shallow embedding of the pool controller of [qmempool.c] and a
    verification of its lifecycle and slow paths.  The C code mutates a
    [struct qmempool] through a pointer and talks to three kernel services:
    the slab cache behind [pool->kmem], the generic allocator
    ([kzalloc], [alloc_percpu]) and the ring queue library.  Here the pool is
    a record passed in and out of every function, and the kernel services
    live in a [kernel] state threaded by a small state-and-crash monad.
    [BUG_ON] and a NULL dereference end an execution ([Fatal]).

    Execution is sequential: the claims settled below are about one call
    running on one CPU.  Diagnostics ([pr_err], [pr_warn], [WARN_ON]) do not
    change any state the pool can observe and are left out. *)

From stdpp Require Import base numbers list.

Local Open Scope Z_scope.

(** ** Machine integers and pointers *)

(** An element handle ([void *]); [NULL] is the null pointer. *)
Abbreviation ptr := Z (only parsing).
Definition NULL : ptr := 0.

(** Conversion of a C [int] to [unsigned] (32 bit): what happens to the
    count argument of the ring queue's bulk operations. *)
Definition u32 (z : Z) : Z := z mod 2 ^ 32.

(** [#define POWEROF2(x) (((x) & ((x) - 1)) == 0)] on a [uint32_t]. *)
Definition POWEROF2 (x : Z) : bool := Z.land x (u32 (x - 1)) =? 0.

(** Modelled from the spec: the header include/linux/qmempool.h is not part
    of the sources.  It defines the two tuning constants; their values are
    the ones of the specification's concrete scenario ("16>=BULK(16),
    64>16x2"), which the comments of qmempool.c quote as well
    ("REFILL_MULTIPLIER(2) * BULK(16)", "dealloc 48 elems"). *)
Definition QMEMPOOL_BULK : Z := 16.
Definition QMEMPOOL_REFILL_MULTIPLIER : Z := 2.

(** ** The ring queue *)

Module Ring.

(** Modelled from the spec: include/linux/ring_queue.h is not part of the
    sources.  A ring queue is a FIFO of element handles with a
    power-of-two size of which one slot stays unused; bulk operations
    move all [n] elements or none.  The functions return the C result
    code: [0] on success, a negative errno otherwise. *)
Record ring_queue := mk_ring {
  rq_size  : Z;          (* number of slots *)
  rq_flags : Z;          (* RING_F_SP_ENQ | RING_F_SC_DEQ, or 0 *)
  rq_elems : list ptr    (* content, oldest first *)
}.

Definition RING_F_SP_ENQ : Z := 1.
Definition RING_F_SC_DEQ : Z := 2.
Definition ENOENT : Z := 2.
Definition ENOBUFS : Z := 105.

Definition ring_queue_count (r : ring_queue) : Z :=
  Z.of_nat (length (rq_elems r)).

Definition ring_queue_free_count (r : ring_queue) : Z :=
  rq_size r - 1 - ring_queue_count r.

Definition ring_queue_empty (r : ring_queue) : bool :=
  ring_queue_count r =? 0.

Definition with_elems (r : ring_queue) (l : list ptr) : ring_queue :=
  {| rq_size := rq_size r; rq_flags := rq_flags r; rq_elems := l |}.

(** Modelled from the spec: [enqueue_bulk(ring, elems[n]) -> Ok | Full],
    all or nothing.  [n] is the [unsigned] count, [tbl] the caller's
    array. *)
Definition enqueue_bulk (r : ring_queue) (tbl : list ptr) (n : Z)
  : Z * ring_queue :=
  if n <=? ring_queue_free_count r
  then (0, with_elems r (rq_elems r ++ take (Z.to_nat n) tbl))
  else (- ENOBUFS, r).

(** Modelled from the spec: [dequeue_bulk(ring, out[n]) -> Ok | Empty],
    all or nothing.  The result carries the caller's array, whose first
    [n] slots are overwritten on success. *)
Definition dequeue_bulk (r : ring_queue) (tbl : list ptr) (n : Z)
  : Z * ring_queue * list ptr :=
  if n <=? ring_queue_count r
  then (0, with_elems r (drop (Z.to_nat n) (rq_elems r)),
        take (Z.to_nat n) (rq_elems r) ++ drop (Z.to_nat n) tbl)
  else (- ENOENT, r, tbl).

(** The producer and consumer variants differ only in how they
    synchronise; a sequential execution cannot tell them apart. *)
Definition ring_queue_mp_enqueue_bulk := enqueue_bulk.
Definition ring_queue_sp_enqueue_bulk := enqueue_bulk.
Definition ring_queue_mc_dequeue_bulk := dequeue_bulk.

(** Modelled from the spec: [enqueue(ring, elem) -> Ok | Full]. *)
Definition ring_queue_enqueue (r : ring_queue) (e : ptr) : Z * ring_queue :=
  enqueue_bulk r [e] 1.

(** Modelled from the spec: [dequeue(ring) -> Ok(elem) | Empty].  The
    third component is the value left in the caller's [elem] variable. *)
Definition ring_queue_dequeue (r : ring_queue) (elem : ptr)
  : Z * ring_queue * ptr :=
  match rq_elems r with
  | [] => (- ENOENT, r, elem)
  | e :: rest => (0, with_elems r rest, e)
  end.

Definition ring_queue_sc_dequeue := ring_queue_dequeue.

End Ring.
Import Ring.

(** ** Kernel services *)

(** What the pool sees of the rest of the kernel.
    - [slab] lists what the next calls of [kmem_cache_alloc] return; a
      [NULL] entry, or the end of the list, is a depleted slab;
    - [slab_calls], [slab_got] and [slab_freed] record the calls made, the
      elements obtained and the elements given back, oldest first;
    - [mem_faults] says which of the next [kzalloc], [alloc_percpu] and
      [ring_queue_create] calls fail ([true]); past its end they succeed;
    - [heap_objs] and [ring_objs] count the records and rings that are
      allocated and not yet freed;
    - [possible_cpus] is the range of [for_each_possible_cpu]. *)
Record kernel := mk_kernel {
  slab          : list ptr;
  slab_calls    : Z;
  slab_got      : list ptr;
  slab_freed    : list ptr;
  mem_faults    : list bool;
  heap_objs     : Z;
  ring_objs     : Z;
  possible_cpus : nat
}.

(** How an execution ends when it does not return: a [BUG_ON] that fires,
    a NULL pointer that is followed, or (an artefact of the embedding, shown
    unreachable in [drain_enough_fuel]) a loop that outlives its fuel. *)
Inductive fatal := BUG | NULL_DEREF | OUT_OF_FUEL.

Inductive outcome (A : Type) :=
| Done (a : A) (k : kernel)
| Fatal (f : fatal) (k : kernel).
Arguments Done {A} a k.
Arguments Fatal {A} f k.

Definition M (A : Type) : Type := kernel -> outcome A.

Definition ret {A} (a : A) : M A := fun k => Done a k.

Definition bind {A B} (m : M A) (f : A -> M B) : M B :=
  fun k => match m k with
           | Done a k' => f a k'
           | Fatal e k' => Fatal e k'
           end.

Notation "x <- c1 ;; c2" := (bind c1 (fun x => c2))
  (at level 100, c1 at next level, right associativity).
Notation "c1 ;;; c2" := (bind c1 (fun _ => c2))
  (at level 100, c2 at level 200, right associativity).

(** [BUG_ON(cond)]. *)
Definition BUG_ON (cond : bool) : M unit :=
  fun k => if cond then Fatal BUG k else Done tt k.

(** Following a pointer that may be NULL. *)
Definition deref {A} (p : option A) : M A :=
  fun k => match p with
           | Some a => Done a k
           | None => Fatal NULL_DEREF k
           end.

Definition next_fault (k : kernel) : bool * list bool :=
  match mem_faults k with
  | [] => (false, [])
  | b :: rest => (b, rest)
  end.

(** [kmem_cache_alloc(kmem, gfp_mask)]. *)
Definition kmem_cache_alloc (kmem : ptr) (gfp_mask : Z) : M ptr :=
  fun k =>
    match slab k with
    | [] =>
        Done NULL
          (mk_kernel [] (slab_calls k + 1) (slab_got k) (slab_freed k)
             (mem_faults k) (heap_objs k) (ring_objs k) (possible_cpus k))
    | e :: rest =>
        Done e
          (mk_kernel rest (slab_calls k + 1)
             (if e =? NULL then slab_got k else slab_got k ++ [e])
             (slab_freed k)
             (mem_faults k) (heap_objs k) (ring_objs k) (possible_cpus k))
    end.

(** [kmem_cache_free(kmem, elem)]. *)
Definition kmem_cache_free (kmem : ptr) (elem : ptr) : M unit :=
  fun k =>
    Done tt
      (mk_kernel (slab k) (slab_calls k) (slab_got k) (slab_freed k ++ [elem])
         (mem_faults k) (heap_objs k) (ring_objs k) (possible_cpus k)).

(** [kzalloc(size, gfp_mask)]: [true] when a zeroed record was obtained. *)
Definition kzalloc : M bool :=
  fun k =>
    let '(fails, rest) := next_fault k in
    Done (negb fails)
      (mk_kernel (slab k) (slab_calls k) (slab_got k) (slab_freed k) rest
         (if fails then heap_objs k else heap_objs k + 1)
         (ring_objs k) (possible_cpus k)).

(** [kfree(p)] and [free_percpu(p)] of a non-NULL pointer. *)
Definition kfree : M unit :=
  fun k =>
    Done tt
      (mk_kernel (slab k) (slab_calls k) (slab_got k) (slab_freed k)
         (mem_faults k) (heap_objs k - 1) (ring_objs k) (possible_cpus k)).

Definition free_percpu : M unit := kfree.

(** [ring_queue_create(size, flags)]: a fresh empty ring, or NULL. *)
Definition ring_queue_create (size flags : Z) : M (option ring_queue) :=
  fun k =>
    let '(fails, rest) := next_fault k in
    Done (if fails then None else Some (mk_ring size flags []))
      (mk_kernel (slab k) (slab_calls k) (slab_got k) (slab_freed k) rest
         (heap_objs k)
         (if fails then ring_objs k else ring_objs k + 1)
         (possible_cpus k)).

(** [ring_queue_free(r)]. *)
Definition ring_queue_free : M unit :=
  fun k =>
    Done tt
      (mk_kernel (slab k) (slab_calls k) (slab_got k) (slab_freed k)
         (mem_faults k) (heap_objs k) (ring_objs k - 1) (possible_cpus k)).

(** ** The pool *)

(** [struct qmempool_percpu] and [struct qmempool], with the fields that
    qmempool.c reads and writes.  A ring pointer is [None] when NULL. *)
Record qmempool_percpu := mk_percpu {
  localq     : option ring_queue;
  refill_cnt : Z;
  full_cnt   : Z;
  owner_cpu  : Z
}.

Record qmempool := mk_pool {
  kmem     : ptr;
  gfp_mask : Z;
  sharedq  : option ring_queue;
  prealloc : Z;
  percpu   : option (list qmempool_percpu)
}.

(** Assignments to one field: [pool->sharedq = q], [pool->prealloc = n],
    [pool->percpu = t]. *)
Definition set_sharedq (q : option ring_queue) (pool : qmempool) : qmempool :=
  mk_pool (kmem pool) (gfp_mask pool) q (prealloc pool) (percpu pool).

Definition set_prealloc (n : Z) (pool : qmempool) : qmempool :=
  mk_pool (kmem pool) (gfp_mask pool) (sharedq pool) n (percpu pool).

Definition set_percpu (t : option (list qmempool_percpu)) (pool : qmempool)
  : qmempool :=
  mk_pool (kmem pool) (gfp_mask pool) (sharedq pool) (prealloc pool) t.

(** A zero-filled per-CPU slot, as [alloc_percpu] hands it out. *)
Definition percpu_zero : qmempool_percpu := mk_percpu None 0 0 0.

(** [alloc_percpu(struct qmempool_percpu)]: one zeroed slot per possible
    CPU, or NULL. *)
Definition alloc_percpu : M (option (list qmempool_percpu)) :=
  fun k =>
    let '(fails, rest) := next_fault k in
    Done (if fails then None
          else Some (replicate (possible_cpus k) percpu_zero))
      (mk_kernel (slab k) (slab_calls k) (slab_got k) (slab_freed k) rest
         (if fails then heap_objs k else heap_objs k + 1)
         (ring_objs k) (possible_cpus k)).

(** ** qmempool_destroy *)

(** [while (ring_queue_dequeue(q, &elem) >= 0) kmem_cache_free(kmem, elem);]
    The loop runs once per element of the ring and [fuel] bounds its
    iterations.  The result is the ring and the last value of [elem]. *)
Fixpoint drain (fuel : nat) (kmem : ptr) (q : ring_queue) (elem : ptr)
  : M (ring_queue * ptr) :=
  match fuel with
  | O => fun k => Fatal OUT_OF_FUEL k
  | S fuel' =>
      let '(res, q', elem') := ring_queue_dequeue q elem in
      if res >=? 0
      then kmem_cache_free kmem elem' ;;; drain fuel' kmem q' elem'
      else ret (q', elem')
  end.

(** Fuel for one more iteration than the ring has elements: the last
    iteration is the one whose dequeue fails. *)
Definition drain_fuel (q : ring_queue) : nat := S (length (rq_elems q)).

(** Draining one ring, checking that it ended up empty, and releasing it:
    the body shared by the per-CPU loop and the shared-queue block.  The
    ring pointer is dereferenced by [ring_queue_dequeue]. *)
Definition destroy_ring (kmem : ptr) (qp : option ring_queue) (elem : ptr)
  : M ptr :=
  q <- deref qp ;;
  r <- drain (drain_fuel q) kmem q elem ;;
  BUG_ON (negb (ring_queue_empty (fst r))) ;;;
  ring_queue_free ;;;
  ret (snd r).

(** [for_each_possible_cpu(j) { ... }] of [qmempool_destroy], over the
    slots of the per-CPU table. *)
Fixpoint destroy_percpu (kmem : ptr) (cpus : list qmempool_percpu) (elem : ptr)
  : M ptr :=
  match cpus with
  | [] => ret elem
  | cpu :: rest =>
      elem' <- destroy_ring kmem (localq cpu) elem ;;
      destroy_percpu kmem rest elem'
  end.

(** [qmempool_destroy(pool)]: each tier is drained and released if its
    pointer is not NULL, then the pool record is freed. *)
Definition qmempool_destroy (pool : qmempool) : M unit :=
  let elem := NULL in
  elem <- match percpu pool with
          | Some cpus =>
              elem' <- destroy_percpu (kmem pool) cpus elem ;;
              free_percpu ;;;
              ret elem'
          | None => ret elem
          end ;;
  match sharedq pool with
  | Some _ => destroy_ring (kmem pool) (sharedq pool) elem
  | None => ret elem
  end ;;;
  kfree.

(** ** qmempool_create *)

(** The preallocation loop [for (i = 0; i < prealloc; i++)]; [n] is the
    number of iterations left.  [None] is the early [return NULL], taken
    after [qmempool_destroy(pool)]. *)
Fixpoint create_prealloc (n : nat) (pool : qmempool) : M (option qmempool) :=
  match n with
  | O => ret (Some pool)
  | S n' =>
      elem <- kmem_cache_alloc (kmem pool) (gfp_mask pool) ;;
      if elem =? NULL
      then qmempool_destroy pool ;;; ret None
      else
        q <- deref (sharedq pool) ;;
        let '(res, q') := ring_queue_enqueue q elem in
        BUG_ON (res <? 0) ;;;
        create_prealloc n' (set_sharedq (Some q') pool)
  end.

(** The loop [for_each_possible_cpu(j)] that equips every CPU with its
    local ring; [n] CPUs are left, starting at CPU [j]. *)
Fixpoint create_localqs (n : nat) (j : nat) (localq_sz : Z) (pool : qmempool)
  : M (option qmempool) :=
  match n with
  | O => ret (Some pool)
  | S n' =>
      tbl <- deref (percpu pool) ;;
      cpu <- deref (tbl !! j) ;;
      q <- ring_queue_create localq_sz (Z.lor RING_F_SP_ENQ RING_F_SC_DEQ) ;;
      match q with
      | None =>
          let cpu := mk_percpu None (refill_cnt cpu) (full_cnt cpu)
                       (owner_cpu cpu) in
          qmempool_destroy (set_percpu (Some (<[j := cpu]> tbl)) pool) ;;;
          ret None
      | Some _ =>
          let cpu := mk_percpu q 0 0 (-1) in
          create_localqs n' (S j) localq_sz
            (set_percpu (Some (<[j := cpu]> tbl)) pool)
      end
  end.

(** [qmempool_create(localq_sz, sharedq_sz, prealloc, kmem, gfp_mask)];
    [None] is the NULL result. *)
Definition qmempool_create (localq_sz sharedq_sz prealloc : Z)
    (kmem : ptr) (gfp_mask : Z) : M (option qmempool) :=
  (* Validate constraints, e.g. due to bulking *)
  if localq_sz <? QMEMPOOL_BULK then ret None
  else if sharedq_sz <=? QMEMPOOL_BULK * QMEMPOOL_REFILL_MULTIPLIER
  then ret None
  else if negb (POWEROF2 localq_sz) || negb (POWEROF2 sharedq_sz)
  then ret None
  else if prealloc >=? sharedq_sz then ret None
  else if kmem =? NULL then ret None
  else
    ok <- kzalloc ;;
    if negb ok then ret None
    else
      let pool := mk_pool kmem gfp_mask None 0 None in
      (* MPMC (Multi-Producer-Multi-Consumer) ring queue *)
      q <- ring_queue_create sharedq_sz 0 ;;
      let pool := set_sharedq q pool in
      match q with
      | None => qmempool_destroy pool ;;; ret None
      | Some _ =>
          let pool := set_prealloc prealloc pool in
          r <- create_prealloc (Z.to_nat prealloc) pool ;;
          match r with
          | None => ret None
          | Some pool =>
              t <- alloc_percpu ;;
              let pool := set_percpu t pool in
              match t with
              | None => qmempool_destroy pool ;;; ret None
              | Some _ =>
                  (* SPSC ring queue per CPU *)
                  ncpu <- (fun k => Done (possible_cpus k) k) ;;
                  create_localqs ncpu 0 localq_sz pool
              end
          end
      end.

(** ** Element handling: the slow paths *)

(** The on-stack [void *elems[QMEMPOOL_BULK]].  Its initial content is never
    read before it is written. *)
Definition elems_on_stack : list ptr :=
  replicate (Z.to_nat QMEMPOOL_BULK) NULL.

(** Called when the localq runs out of elements: refill it from the
    sharedq.  The result is the returned element, the pool and the ring
    behind the [localq] argument. *)
Definition __qmempool_alloc_from_sharedq (pool : qmempool) (gfp_mask : Z)
    (localq : option ring_queue)
  : M (ptr * qmempool * option ring_queue) :=
  let elems := elems_on_stack in
  sq <- deref (sharedq pool) ;;
  let '(res, sq', elems) :=
    ring_queue_mc_dequeue_bulk sq elems (u32 QMEMPOOL_BULK) in
  if res =? 0 then
    let elem := nth 0 elems NULL in   (* extract one element *)
    (* Refill localq *)
    lq <- deref localq ;;
    let '(res, lq') :=
      ring_queue_sp_enqueue_bulk lq (drop 1 elems) (u32 (QMEMPOOL_BULK - 1)) in
    BUG_ON (res <? 0) ;;;
    ret (elem, set_sharedq (Some sq') pool, Some lq')
  else ret (NULL, pool, localq).

(** The inner loop [for (j = 0; j < QMEMPOOL_BULK; j++)] of
    [__qmempool_alloc_from_slab]; [n] iterations are left.  [inl elems] is
    the filled array; [inr pool] is the early [return elem] taken when the
    slab gives NULL. *)
Fixpoint slab_fill (n : nat) (j : Z) (elems : list ptr) (pool : qmempool)
    (gfp_mask : Z) : M (list ptr + qmempool) :=
  match n with
  | O => ret (inl elems)
  | S n' =>
      e <- kmem_cache_alloc (kmem pool) gfp_mask ;;
      let elems := <[Z.to_nat j := e]> elems in
      if e =? NULL then
        sq <- deref (sharedq pool) ;;
        let '(res, sq') := ring_queue_mp_enqueue_bulk sq elems (u32 (j - 1)) in
        BUG_ON (res <? 0) ;;;
        ret (inr (set_sharedq (Some sq') pool))
      else slab_fill n' (j + 1) elems pool gfp_mask
  end.

(** The outer loop [for (i = 0; i < QMEMPOOL_REFILL_MULTIPLIER; i++)];
    [rounds] iterations are left. *)
Fixpoint slab_refill (rounds : nat) (elems : list ptr) (pool : qmempool)
    (gfp_mask : Z) : M qmempool :=
  match rounds with
  | O => ret pool
  | S rounds' =>
      r <- slab_fill (Z.to_nat QMEMPOOL_BULK) 0 elems pool gfp_mask ;;
      match r with
      | inr pool' => ret pool'
      | inl elems' =>
          sq <- deref (sharedq pool) ;;
          let '(res, sq') :=
            ring_queue_mp_enqueue_bulk sq elems' (u32 QMEMPOOL_BULK) in
          BUG_ON (res <? 0) ;;;   (* sharedq should have room *)
          slab_refill rounds' elems' (set_sharedq (Some sq') pool) gfp_mask
      end
  end.

(** Called when the sharedq runs out of elements: allocate the caller's
    element from the slab, then refill the sharedq from the slab. *)
Definition __qmempool_alloc_from_slab (pool : qmempool) (gfp_mask : Z)
  : M (ptr * qmempool) :=
  elem <- kmem_cache_alloc (kmem pool) gfp_mask ;;
  if elem =? NULL then
    (* slab is depleted, no reason to call below allocs *)
    ret (NULL, pool)
  else
    pool' <- slab_refill (Z.to_nat QMEMPOOL_REFILL_MULTIPLIER)
               elems_on_stack pool gfp_mask ;;
    ret (elem, pool').

(** [for (i = 0; i < QMEMPOOL_BULK; i++) kmem_cache_free(pool->kmem,
    elems[i]);] with [n] iterations left. *)
Fixpoint free_bulk (n : nat) (i : Z) (kmem : ptr) (elems : list ptr) : M unit :=
  match n with
  | O => ret tt
  | S n' =>
      kmem_cache_free kmem (nth (Z.to_nat i) elems NULL) ;;;
      free_bulk n' (i + 1) kmem elems
  end.

(** The loop of [__qmempool_free_to_slab] that makes room in the sharedq. *)
Fixpoint free_shrink (rounds : nat) (pool : qmempool) (elems : list ptr)
  : M (qmempool * list ptr) :=
  match rounds with
  | O => ret (pool, elems)
  | S rounds' =>
      sq <- deref (sharedq pool) ;;
      let '(res, sq', elems') :=
        ring_queue_mc_dequeue_bulk sq elems (u32 QMEMPOOL_BULK) in
      BUG_ON (res <? 0) ;;;   (* could race, but sharedq should be full *)
      free_bulk (Z.to_nat QMEMPOOL_BULK) 0 (kmem pool) elems' ;;;
      free_shrink rounds' (set_sharedq (Some sq') pool) elems'
  end.

(** Called when the sharedq is full, thus make room.  The result is the
    returned flag, the pool, and the caller's array as the call leaves it. *)
Definition __qmempool_free_to_slab (pool : qmempool) (elems : list ptr)
  : M (bool * qmempool * list ptr) :=
  (* free these elements for real *)
  free_bulk (Z.to_nat QMEMPOOL_BULK) 0 (kmem pool) elems ;;;
  (* make enough room in sharedq for next round *)
  r <- free_shrink (Z.to_nat QMEMPOOL_REFILL_MULTIPLIER) pool elems ;;
  ret (true, fst r, snd r).

(** ** The entry point *)

(** Modelled from the spec: the entry point [qmempool_alloc] is an inline
    function of include/linux/qmempool.h, which is not part of the sources.
    Sections 4.3 to 4.5 of the specification give its steps: a single
    dequeue from the calling CPU's local cache; when that is empty, the
    refill from the shared pool ([__qmempool_alloc_from_sharedq], counting
    the refill); when that fails, the slab path
    ([__qmempool_alloc_from_slab]).  [this_cpu] is the CPU the caller runs
    on. *)
Definition qmempool_alloc (pool : qmempool) (gfp_mask : Z) (this_cpu : nat)
  : M (ptr * qmempool) :=
  tbl <- deref (percpu pool) ;;
  cpu <- deref (tbl !! this_cpu) ;;
  lq <- deref (localq cpu) ;;
  let '(res, lq', elem) := ring_queue_sc_dequeue lq NULL in
  if res =? 0 then
    let cpu := mk_percpu (Some lq') (refill_cnt cpu) (full_cnt cpu)
                 (owner_cpu cpu) in
    ret (elem, set_percpu (Some (<[this_cpu := cpu]> tbl)) pool)
  else
    r <- __qmempool_alloc_from_sharedq pool gfp_mask (localq cpu) ;;
    let '(elem, pool, lq2) := r in
    if negb (elem =? NULL) then
      let cpu := mk_percpu lq2 (refill_cnt cpu + 1) (full_cnt cpu)
                   (owner_cpu cpu) in
      ret (elem, set_percpu (Some (<[this_cpu := cpu]> tbl)) pool)
    else __qmempool_alloc_from_slab pool gfp_mask.

(** Occupancy of the two tiers, as the claims count it. *)
Definition shared_count (pool : qmempool) : Z :=
  match sharedq pool with
  | Some q => ring_queue_count q
  | None => 0
  end.

Definition shared_elems (pool : qmempool) : list ptr :=
  match sharedq pool with
  | Some q => rq_elems q
  | None => []
  end.

Definition local_elems (pool : qmempool) (cpu : nat) : list ptr :=
  match percpu pool with
  | Some tbl =>
      match tbl !! cpu with
      | Some c => match localq c with Some q => rq_elems q | None => [] end
      | None => []
      end
  | None => []
  end.

Definition local_count (pool : qmempool) (cpu : nat) : Z :=
  Z.of_nat (length (local_elems pool cpu)).

(** ** Test fixtures *)

Definition kernel0 (slab : list ptr) (faults : list bool) (ncpu : nat)
  : kernel :=
  mk_kernel slab 0 [] [] faults 0 0 ncpu.

(** A pool as [qmempool_create(16, 64, 0, ...)] builds it on one CPU. *)
Definition pool_16_64 : qmempool :=
  mk_pool 1 0 (Some (mk_ring 64 0 [])) 0
    (Some [mk_percpu (Some (mk_ring 16 3 [])) 0 0 (-1)]).


(** A shared queue of 64 slots that is full, a pool around it, and a batch
    of 16 elements on their way out of a local cache. *)
Definition ring_full : ring_queue := mk_ring 64 0 (Z.of_nat <$> seq 200 63).
Definition pool_full : qmempool := mk_pool 1 0 (Some ring_full) 0 None.
Definition batch_100 : list ptr := Z.of_nat <$> seq 100 16.

(** A slab that serves 40 distinct elements, 100 to 139. *)
Definition slab_100 : list ptr := Z.of_nat <$> seq 100 40.

(** ** Vocabulary of the statements *)

(** [x] is a power of two. *)
Definition is_pow2 (x : Z) : Prop := exists k, 0 <= k /\ x = 2 ^ k.

(** A decision procedure for [is_pow2]. *)
Definition is_pow2b (x : Z) : bool := (0 <? x) && (x =? 2 ^ Z.log2 x).

(** The kernel after [l] went back to the slab and [heap] records and
    [rings] rings were released. *)
Definition released (l : list ptr) (heap rings : Z) (k : kernel) : kernel :=
  mk_kernel (slab k) (slab_calls k) (slab_got k) (slab_freed k ++ l)
    (mem_faults k) (heap_objs k - heap) (ring_objs k - rings)
    (possible_cpus k).

(** The elements held by the live rings of a per-CPU table, CPU by CPU. *)
Definition percpu_elems (cpus : list qmempool_percpu) : list ptr :=
  concat ((fun c => match localq c with
                    | Some q => rq_elems q
                    | None => []
                    end) <$> cpus).

(** The slot's local ring exists. *)
Definition localq_live (c : qmempool_percpu) : Prop := localq c <> None.

(** What [qmempool_destroy] releases: the elements of the tiers that
    exist, one record for the pool and one for the per-CPU table, and one
    ring per slot and for the shared queue. *)
Definition pool_elems (pool : qmempool) : list ptr :=
  match percpu pool with Some cpus => percpu_elems cpus | None => [] end
  ++ shared_elems pool.

Definition pool_records (pool : qmempool) : Z :=
  match percpu pool with Some _ => 2 | None => 1 end.

Definition pool_rings (pool : qmempool) : Z :=
  match percpu pool with Some cpus => Z.of_nat (length cpus) | None => 0 end
  + match sharedq pool with Some _ => 1 | None => 0 end.

(** A full ring holds [rq_size - 1] elements. *)
Definition ring_queue_full (r : ring_queue) : Prop :=
  ring_queue_free_count r = 0.

(** What the next [kmem_cache_alloc] returns, and the kernel after it. *)
Definition slab_next (k : kernel) : ptr := hd NULL (slab k).

Definition slab_step (k : kernel) : kernel :=
  mk_kernel (tl (slab k)) (slab_calls k + 1)
    (if slab_next k =? NULL then slab_got k else slab_got k ++ [slab_next k])
    (slab_freed k) (mem_faults k) (heap_objs k) (ring_objs k)
    (possible_cpus k).

(** The kernel after the slab served the elements [es] and was left with
    [rest]. *)
Definition slab_took (es rest : list ptr) (k : kernel) : kernel :=
  mk_kernel rest (slab_calls k + Z.of_nat (length es)) (slab_got k ++ es)
    (slab_freed k) (mem_faults k) (heap_objs k) (ring_objs k)
    (possible_cpus k).

(** A successful allocation. *)
Definition nonnull (e : ptr) : Prop := e <> NULL.

(** The refill claim as the specification words it: one allocation from an
    empty pool leaves [(REFILL_MULTIPLIER - 1) * BULK] elements in the
    shared queue and [BULK - 1] in the local cache. *)
Definition refill_claim_as_stated
    (pool : qmempool) (cpu : nat) (k : kernel) : Prop :=
  exists e pool' k',
    qmempool_alloc pool 0 cpu k = Done (e, pool') k'
    /\ slab_calls k + 1 <= slab_calls k'
    /\ shared_count pool'
       = (QMEMPOOL_REFILL_MULTIPLIER - 1) * QMEMPOOL_BULK
    /\ local_count pool' cpu = QMEMPOOL_BULK - 1
    /\ e ∉ shared_elems pool' ++ local_elems pool' cpu.

(** [k'] is [k] with every resource obtained in between released again:
    no record and no ring outstanding, and every element drawn from the
    slab given back. *)
Definition rolled_back (k k' : kernel) : Prop :=
  heap_objs k' = heap_objs k /\ ring_objs k' = ring_objs k /\
  exists es, slab_got k' = slab_got k ++ es /\
             slab_freed k' = slab_freed k ++ es.

(** The per-CPU slot as [qmempool_create] leaves it: a fresh SPSC ring and
    the counters reset. *)
Definition percpu_fresh (localq_sz : Z) : qmempool_percpu :=
  mk_percpu (Some (mk_ring localq_sz (Z.lor RING_F_SP_ENQ RING_F_SC_DEQ) []))
    0 0 (-1).

(** None of the next [n] calls of [kzalloc], [alloc_percpu] and
    [ring_queue_create] fails. *)
Definition no_faults (n : nat) (k : kernel) : Prop :=
  Forall (fun b => b = false) (take n (mem_faults k)).

(** The kernel after [n] of those calls, which left [heap] more records
    and [rings] more rings allocated. *)
Definition obtained (n : nat) (heap rings : Z) (k : kernel) : kernel :=
  mk_kernel (slab k) (slab_calls k) (slab_got k) (slab_freed k)
    (drop n (mem_faults k)) (heap_objs k + heap) (ring_objs k + rings)
    (possible_cpus k).

(** The kernel an execution ends with, returned or not. *)
Definition outcome_kernel {A} (o : outcome A) : kernel :=
  match o with
  | Done _ k => k
  | Fatal _ k => k
  end.

(** The configurations [qmempool_create] accepts. *)
Definition config_ok (localq_sz sharedq_sz prealloc : Z) (kmem : ptr) : Prop :=
  QMEMPOOL_BULK <= localq_sz < 2 ^ 32 /\
  QMEMPOOL_BULK * QMEMPOOL_REFILL_MULTIPLIER < sharedq_sz < 2 ^ 32 /\
  is_pow2b localq_sz = true /\ is_pow2b sharedq_sz = true /\
  prealloc < sharedq_sz /\ kmem <> NULL.

(** Tactics for the concrete instances: a list of literals holds no NULL,
    and a configuration of literals is valid. *)
Ltac concrete_nonnull :=
  apply Forall_forall; intros ? Hin; apply list_elem_of_In in Hin;
  vm_compute in Hin; unfold nonnull, NULL; intuition (subst; discriminate).

Ltac concrete_config :=
  unfold config_ok, QMEMPOOL_BULK, QMEMPOOL_REFILL_MULTIPLIER, NULL;
  repeat split; try reflexivity; try lia; try discriminate.

(** * Verification *)

(** ** Powers of two *)

Lemma is_pow2b_spec x : is_pow2b x = true <-> is_pow2 x.
Proof.
  unfold is_pow2b, is_pow2. rewrite andb_true_iff, Z.ltb_lt, Z.eqb_eq. split.
  - intros [_ E]. exists (Z.log2 x). split; [apply Z.log2_nonneg | exact E].
  - intros (kk & Hk & ->). split.
    + apply Z.pow_pos_nonneg; lia.
    + now rewrite Z.log2_pow2.
Qed.

(** On a nonzero [uint32_t] the macro accepts exactly the powers of two. *)
Lemma POWEROF2_log2 x :
  0 < x < 2 ^ 32 -> POWEROF2 x = true -> x = 2 ^ Z.log2 x.
Proof.
  intros Hx H. unfold POWEROF2, u32 in H.
  rewrite Z.mod_small in H by lia. apply Z.eqb_eq in H.
  destruct (Z.log2_spec x ltac:(lia)) as [Hlo Hhi].
  destruct (Z.eq_dec x (2 ^ Z.log2 x)) as [E | NE]; [exact E | exfalso].
  assert (Hl : Z.log2 (x - 1) = Z.log2 x).
  { apply Z.log2_unique; [apply Z.log2_nonneg | lia]. }
  assert (Hb1 : Z.testbit x (Z.log2 x) = true) by (apply Z.bit_log2; lia).
  assert (Hb2 : Z.testbit (x - 1) (Z.log2 x) = true).
  { rewrite <- Hl. apply Z.bit_log2.
    assert (0 < 2 ^ Z.log2 x) by (apply Z.pow_pos_nonneg;
      [lia | apply Z.log2_nonneg]). lia. }
  assert (Hb : Z.testbit (Z.land x (x - 1)) (Z.log2 x) = true).
  { now rewrite Z.land_spec, Hb1, Hb2. }
  rewrite H, Z.bits_0 in Hb. discriminate.
Qed.

Lemma POWEROF2_is_pow2b x :
  0 < x < 2 ^ 32 -> POWEROF2 x = is_pow2b x.
Proof.
  intros Hx. destruct (POWEROF2 x) eqn:E.
  - symmetry. unfold is_pow2b. rewrite andb_true_iff, Z.ltb_lt, Z.eqb_eq.
    split; [lia | now apply POWEROF2_log2].
  - symmetry. apply not_true_is_false. intros Hp.
    apply is_pow2b_spec in Hp. destruct Hp as (kk & Hk & ->).
    assert (Hlt : kk < 32).
    { apply (Z.pow_lt_mono_r_iff 2); lia. }
    unfold POWEROF2, u32 in E.
    assert (Hpos : 0 < 2 ^ kk) by (apply Z.pow_pos_nonneg; lia).
    rewrite Z.mod_small in E by lia.
    replace (2 ^ kk - 1) with (Z.ones kk) in E
      by (rewrite Z.ones_equiv; lia).
    rewrite Z.land_ones, Z.mod_same in E by lia.
    discriminate.
Qed.

(** ** C3: creation rejects a bad configuration *)

(** C3.  For every input, [qmempool_create] with a local or shared capacity
    that is not a power of two, or [localq_sz < BULK], or
    [sharedq_sz <= BULK * REFILL_MULTIPLIER], or [prealloc >= sharedq_sz],
    or a NULL [kmem], returns NULL and leaves the kernel state as it found
    it: nothing is drawn from the slab and nothing else is allocated. *)
Theorem create_rejects_bad_config
    (localq_sz sharedq_sz prealloc kmem gfp_mask : Z) (k : kernel) :
  0 <= localq_sz < 2 ^ 32 ->
  0 <= sharedq_sz < 2 ^ 32 ->
  is_pow2b localq_sz = false \/ is_pow2b sharedq_sz = false \/
  localq_sz < QMEMPOOL_BULK \/
  sharedq_sz <= QMEMPOOL_BULK * QMEMPOOL_REFILL_MULTIPLIER \/
  prealloc >= sharedq_sz \/
  kmem = NULL ->
  qmempool_create localq_sz sharedq_sz prealloc kmem gfp_mask k = Done None k.
Proof.
  intros Hl Hs Hbad. unfold qmempool_create.
  destruct (localq_sz <? QMEMPOOL_BULK) eqn:E1; [reflexivity |].
  destruct (sharedq_sz <=? QMEMPOOL_BULK * QMEMPOOL_REFILL_MULTIPLIER) eqn:E2;
    [reflexivity |].
  apply Z.ltb_ge in E1. apply Z.leb_gt in E2.
  unfold QMEMPOOL_BULK, QMEMPOOL_REFILL_MULTIPLIER in *.
  rewrite !POWEROF2_is_pow2b by lia.
  destruct (is_pow2b localq_sz) eqn:P1; [| reflexivity].
  destruct (is_pow2b sharedq_sz) eqn:P2; [| reflexivity].
  cbn [negb orb].
  destruct (prealloc >=? sharedq_sz) eqn:E4; [reflexivity |].
  destruct (kmem =? NULL) eqn:E5; [reflexivity |].
  exfalso. apply Z.eqb_neq in E5.
  rewrite Z.geb_leb in E4. apply Z.leb_gt in E4.
  destruct Hbad as [H | [H | [H | [H | [H | H]]]]];
    try discriminate; try lia; congruence.
Qed.

Lemma create_rejects_bad_config_witness :
  qmempool_create 24 64 0 1 0 (kernel0 [100; 101] [] 2)
  = Done None (kernel0 [100; 101] [] 2).
Proof.
  apply create_rejects_bad_config.
  - vm_compute. split; [discriminate | reflexivity].
  - vm_compute. split; [discriminate | reflexivity].
  - left. reflexivity.
Defined.

(** ** Tearing a pool down *)

Lemma released_nothing k : released [] 0 0 k = k.
Proof.
  destruct k. unfold released. cbn. rewrite app_nil_r. f_equal; lia.
Qed.

Lemma released_released l1 l2 h1 h2 r1 r2 k :
  released l2 h2 r2 (released l1 h1 r1 k)
  = released (l1 ++ l2) (h1 + h2) (r1 + r2) k.
Proof.
  unfold released. cbn. rewrite app_assoc. f_equal; lia.
Qed.

Lemma kmem_cache_free_released kmem e k :
  kmem_cache_free kmem e k = Done tt (released [e] 0 0 k).
Proof.
  unfold kmem_cache_free, released. do 2 f_equal; lia.
Qed.

(** The drain loop returns as soon as it has as much fuel as the ring has
    elements plus one; everything the ring held went back to the slab, in
    order. *)
Lemma drain_enough_fuel kmem fuel : forall q elem k,
  (length (rq_elems q) < fuel)%nat ->
  exists elem',
    drain fuel kmem q elem k
    = Done (with_elems q [], elem') (released (rq_elems q) 0 0 k).
Proof.
  induction fuel as [| fuel IH]; intros q elem k Hlen; [lia |].
  destruct q as [sz fl els]. cbn [rq_elems] in *.
  destruct els as [| e rest].
  - exists elem. cbn. now rewrite released_nothing.
  - cbn [length] in Hlen.
    destruct (IH (mk_ring sz fl rest) e (released [e] 0 0 k)) as [elem' IH'];
      [cbn; lia |].
    exists elem'. cbn [drain ring_queue_dequeue rq_elems]. cbn [Z.geb Z.compare].
    unfold bind. rewrite kmem_cache_free_released.
    unfold with_elems in *. cbn [rq_size rq_flags rq_elems] in *.
    rewrite IH'. now rewrite released_released.
Qed.

Lemma destroy_ring_live kmem q elem k :
  exists elem',
    destroy_ring kmem (Some q) elem k
    = Done elem' (released (rq_elems q) 0 1 k).
Proof.
  assert (Hfuel : (length (rq_elems q) < drain_fuel q)%nat)
    by (unfold drain_fuel; lia).
  destruct (drain_enough_fuel kmem (drain_fuel q) q elem k Hfuel) as [elem' H].
  exists elem'. unfold destroy_ring, bind, deref. rewrite H.
  unfold BUG_ON, ring_queue_free, ret, released. cbn.
  do 2 f_equal; cbn; lia.
Qed.

Lemma destroy_ring_null kmem elem k :
  destroy_ring kmem None elem k = Fatal NULL_DEREF k.
Proof. reflexivity. Qed.

Lemma destroy_percpu_live kmem cpus : forall elem k,
  Forall localq_live cpus ->
  exists elem',
    destroy_percpu kmem cpus elem k
    = Done elem' (released (percpu_elems cpus) 0 (Z.of_nat (length cpus)) k).
Proof.
  induction cpus as [| c cpus IH]; intros elem k Hlive.
  - exists elem. cbn. now rewrite released_nothing.
  - inversion Hlive as [| ? ? Hc Hrest]; subst.
    destruct c as [[q |] rc fc oc]; [| now elim Hc].
    destruct (destroy_ring_live kmem q elem k) as [e1 H1].
    destruct (IH e1 (released (rq_elems q) 0 1 k) Hrest) as [e2 H2].
    exists e2. cbn [destroy_percpu localq]. unfold bind.
    rewrite H1, H2, released_released.
    unfold percpu_elems. cbn [fmap list_fmap concat localq length].
    do 2 f_equal. lia.
Qed.

(** A table with a NULL ring makes the per-CPU loop follow the NULL
    pointer: [ring_queue_dequeue(cpu->localq, ...)] has no guard. *)
Lemma destroy_percpu_null_localq kmem cpus1 c cpus2 elem k :
  Forall localq_live cpus1 ->
  localq c = None ->
  exists k', destroy_percpu kmem (cpus1 ++ c :: cpus2) elem k
             = Fatal NULL_DEREF k'.
Proof.
  revert elem k. induction cpus1 as [| c1 cpus1 IH]; intros elem k Hlive Hc.
  - exists k. cbn. unfold bind. now rewrite Hc.
  - inversion Hlive as [| ? ? Hc1 Hrest]; subst.
    destruct c1 as [[q |] rc fc oc]; [| now elim Hc1].
    destruct (destroy_ring_live kmem q elem k) as [e1 H1].
    destruct (IH e1 (released (rq_elems q) 0 1 k) Hrest Hc) as [k' H2].
    exists k'. cbn [app destroy_percpu localq]. unfold bind.
    now rewrite H1, H2.
Qed.

Lemma destroy_null_localq km g sq pre cpus1 c cpus2 k :
  Forall localq_live cpus1 ->
  localq c = None ->
  exists k',
    qmempool_destroy (mk_pool km g sq pre (Some (cpus1 ++ c :: cpus2))) k
    = Fatal NULL_DEREF k'.
Proof.
  intros Hlive Hc.
  destruct (destroy_percpu_null_localq km cpus1 c cpus2 NULL k Hlive Hc)
    as [k' H].
  exists k'. unfold qmempool_destroy. cbn [percpu kmem].
  unfold bind. now rewrite H.
Qed.

Lemma kfree_released k : kfree k = Done tt (released [] 1 0 k).
Proof.
  unfold kfree, released. rewrite app_nil_r. do 2 f_equal; lia.
Qed.

Lemma destroy_releases pool k :
  (forall cpus, percpu pool = Some cpus -> Forall localq_live cpus) ->
  qmempool_destroy pool k
  = Done tt (released (pool_elems pool) (pool_records pool) (pool_rings pool) k).
Proof.
  intros Hlive. destruct pool as [km gfp sq pre pc].
  unfold qmempool_destroy, pool_elems, pool_records, pool_rings, shared_elems.
  cbn [percpu sharedq kmem] in *.
  destruct pc as [cpus |].
  - destruct (destroy_percpu_live km cpus NULL k (Hlive cpus eq_refl))
      as [e1 H1].
    unfold bind at 1. unfold bind at 1. rewrite H1.
    unfold free_percpu, bind at 1. rewrite kfree_released, released_released.
    unfold ret at 1. destruct sq as [q |].
    + destruct (destroy_ring_live km q e1
        (released (percpu_elems cpus ++ []) (0 + 1)
           (Z.of_nat (length cpus) + 0) k)) as [e2 H2].
      unfold bind. rewrite H2, kfree_released, !released_released.
      rewrite !app_nil_r. do 2 f_equal; lia.
    + unfold bind, ret. rewrite kfree_released, !released_released.
      rewrite !app_nil_r. do 2 f_equal; lia.
  - unfold bind at 1. unfold ret at 1. destruct sq as [q |].
    + destruct (destroy_ring_live km q NULL k) as [e2 H2].
      unfold bind. rewrite H2, kfree_released, !released_released.
      rewrite !app_nil_r. do 2 f_equal; lia.
    + unfold bind, ret. rewrite kfree_released.
      do 2 f_equal.
Qed.

(** The teardown where it works.  [qmempool_destroy] on a pool of which the
    per-CPU table or the shared ring is NULL, provided every slot of a
    table that exists has its local ring (a condition the rollback after a
    failed local-ring creation does not meet): the
    missing tier is neither followed nor released (it contributes no
    element and no ring to what is released), the tiers that exist are
    drained to the slab and pass their emptiness assertion, and the pool
    record is released; the call returns. *)
Theorem destroy_partial_pool (pool : qmempool) (k : kernel) :
  percpu pool = None \/ sharedq pool = None ->
  (forall cpus, percpu pool = Some cpus -> Forall localq_live cpus) ->
  qmempool_destroy pool k
  = Done tt (released (pool_elems pool) (pool_records pool) (pool_rings pool) k)
  /\ 1 <= pool_records pool
  /\ (percpu pool = None ->
      pool_elems pool = shared_elems pool /\ pool_rings pool <= 1)
  /\ (sharedq pool = None ->
      shared_elems pool = [] /\
      forall cpus, percpu pool = Some cpus ->
                   pool_rings pool = Z.of_nat (length cpus)).
Proof.
  intros _ Hlive. split; [now apply destroy_releases |].
  unfold pool_records, pool_elems, pool_rings, shared_elems.
  repeat split.
  - destruct (percpu pool); lia.
  - now rewrite H.
  - rewrite H. destruct (sharedq pool); lia.
  - now rewrite H.
  - intros cpus Hc. rewrite H, Hc. lia.
Qed.

Lemma destroy_partial_pool_witness :
  qmempool_destroy (mk_pool 1 0 (Some (mk_ring 64 0 [100; 101])) 2 None)
    (kernel0 [] [] 2)
  = Done tt (released [100; 101] 1 1 (kernel0 [] [] 2)).
Proof.
  refine (proj1 (destroy_partial_pool
    (mk_pool 1 0 (Some (mk_ring 64 0 [100; 101])) 2 None)
    (kernel0 [] [] 2) _ _)).
  - left. reflexivity.
  - intros cpus H. discriminate H.
Defined.

(** C10 on the code.  The partially constructed pool that
    [qmempool_create] hands to [qmempool_destroy] when the local ring of
    the only CPU cannot be created: the pool record, the shared ring with
    its 16 preallocated elements and the per-CPU table exist, the slot's
    [localq] is NULL.  Neither tier pointer is NULL, so both guards pass,
    and the per-CPU loop gives the NULL [localq] to [ring_queue_dequeue]:
    the teardown does not return, drains nothing and does not release the
    pool record. *)
Lemma destroy_after_localq_failure :
  qmempool_destroy
    (mk_pool 1 0 (Some (mk_ring 64 0 (Z.of_nat <$> seq 100 16))) 16
       (Some [mk_percpu None 0 0 0]))
    (mk_kernel [] 16 (Z.of_nat <$> seq 100 16) [] [] 2 1 1)
  = Fatal NULL_DEREF
      (mk_kernel [] 16 (Z.of_nat <$> seq 100 16) [] [] 2 1 1)
  /\ forall k',
       qmempool_destroy
         (mk_pool 1 0 (Some (mk_ring 64 0 (Z.of_nat <$> seq 100 16))) 16
            (Some [mk_percpu None 0 0 0]))
         (mk_kernel [] 16 (Z.of_nat <$> seq 100 16) [] [] 2 1 1)
       <> Done tt k'.
Proof.
  assert (H : qmempool_destroy
                (mk_pool 1 0 (Some (mk_ring 64 0 (Z.of_nat <$> seq 100 16)))
                   16 (Some [mk_percpu None 0 0 0]))
                (mk_kernel [] 16 (Z.of_nat <$> seq 100 16) [] [] 2 1 1)
              = Fatal NULL_DEREF
                  (mk_kernel [] 16 (Z.of_nat <$> seq 100 16) [] [] 2 1 1))
    by (vm_compute; reflexivity).
  split; [exact H |]. intros k'. rewrite H. discriminate.
Qed.

(** ** Giving elements back to the slab *)

Lemma free_bulk_released kmem elems n : forall i k,
  (i + n <= length elems)%nat ->
  free_bulk n (Z.of_nat i) kmem elems k
  = Done tt (released (take n (drop i elems)) 0 0 k).
Proof.
  induction n as [| n IH]; intros i k Hlen.
  - cbn. now rewrite released_nothing.
  - destruct (lookup_lt_is_Some_2 elems i ltac:(lia)) as [x Hx].
    cbn [free_bulk]. unfold bind.
    rewrite Nat2Z.id, (nth_lookup_Some _ _ _ _ Hx), kmem_cache_free_released.
    replace (Z.of_nat i + 1) with (Z.of_nat (S i)) by lia.
    rewrite IH by lia. rewrite released_released.
    rewrite (drop_S _ _ _ Hx). cbn [take]. do 2 f_equal.
Qed.

(** [rounds] rounds of the shrink loop on a shared queue that holds at
    least [rounds] batches: the oldest [rounds * BULK] elements leave the
    queue for the slab and nothing enters it. *)
Lemma free_shrink_released km gfp sz fl pre pc rounds : forall els elems k,
  (16 * rounds <= length els)%nat ->
  length elems = 16%nat ->
  exists elems',
    length elems' = 16%nat /\
    free_shrink rounds (mk_pool km gfp (Some (mk_ring sz fl els)) pre pc)
      elems k
    = Done (mk_pool km gfp (Some (mk_ring sz fl (drop (16 * rounds) els)))
              pre pc, elems')
        (released (take (16 * rounds) els) 0 0 k).
Proof.
  induction rounds as [| rounds IH]; intros els elems k Hlen Hel.
  - exists elems. split; [exact Hel |]. cbn [free_shrink]. unfold ret.
    rewrite Nat.mul_0_r, take_0, drop_0. now rewrite released_nothing.
  - set (batch := take 16 els).
    assert (Hb : length batch = 16%nat)
      by (unfold batch; rewrite length_take; lia).
    destruct (IH (drop 16 els) (batch ++ drop 16 elems)
                (released batch 0 0 k)) as (elems' & Hl' & IH').
    { rewrite length_drop. lia. }
    { rewrite length_app, length_drop. lia. }
    exists elems'. split; [exact Hl' |].
    cbn [free_shrink sharedq kmem]. unfold bind at 1. unfold deref at 1.
    unfold ring_queue_mc_dequeue_bulk, dequeue_bulk, ring_queue_count.
    cbn [rq_elems rq_size rq_flags with_elems].
    change (u32 QMEMPOOL_BULK) with 16.
    change (Z.to_nat QMEMPOOL_BULK) with 16%nat.
    change (Z.to_nat 16) with 16%nat.
    replace (16 <=? Z.of_nat (length els)) with true
      by (symmetry; apply Z.leb_le; lia).
    unfold bind at 1. unfold BUG_ON at 1. cbn [Z.ltb Z.compare].
    unfold bind at 1.
    rewrite (free_bulk_released km (batch ++ drop 16 elems) 16 0 _)
      by (rewrite length_app, length_drop; lia).
    rewrite drop_0, take_app_length' by (now rewrite Hb).
    unfold set_sharedq. cbn [kmem gfp_mask prealloc percpu].
    unfold with_elems. cbn [rq_size rq_flags].
    fold batch. rewrite IH', released_released, drop_drop.
    unfold batch. rewrite take_take_drop.
    replace (16 * S rounds)%nat with (16 + 16 * rounds)%nat by lia.
    do 2 f_equal.
Qed.

(** C8.  [__qmempool_free_to_slab] entered with a batch of [BULK] elements
    and a full shared queue (of a size [qmempool_create] accepts): the
    [BULK] batch elements go to the slab first, then
    [REFILL_MULTIPLIER] rounds move the oldest [BULK] elements of the
    shared queue to the slab, so exactly [BULK * (REFILL_MULTIPLIER + 1)]
    elements are reclaimed; the shared queue only loses elements, none of
    the batch enters it. *)
Theorem free_to_slab_reclaims
    (pool : qmempool) (sq : ring_queue) (elems : list ptr) (k : kernel) :
  sharedq pool = Some sq ->
  Z.of_nat (length elems) = QMEMPOOL_BULK ->
  ring_queue_full sq ->
  QMEMPOOL_BULK * QMEMPOOL_REFILL_MULTIPLIER < rq_size sq ->
  let n := Z.to_nat (QMEMPOOL_BULK * QMEMPOOL_REFILL_MULTIPLIER) in
  let reclaimed := elems ++ take n (rq_elems sq) in
  exists elems',
    __qmempool_free_to_slab pool elems k
    = Done (true,
            set_sharedq (Some (with_elems sq (drop n (rq_elems sq)))) pool,
            elems')
        (released reclaimed 0 0 k)
    /\ Z.of_nat (length reclaimed)
       = QMEMPOOL_BULK * (QMEMPOOL_REFILL_MULTIPLIER + 1).
Proof.
  intros Hsq Hlen Hfull Hsz n reclaimed.
  unfold ring_queue_full, ring_queue_free_count, ring_queue_count in Hfull.
  unfold QMEMPOOL_BULK, QMEMPOOL_REFILL_MULTIPLIER in *.
  change n with 32%nat in *. clear n.
  destruct pool as [km gfp sq0 pre pc]. cbn [sharedq] in Hsq. subst sq0.
  destruct sq as [sz fl els]. cbn [rq_size rq_elems] in *.
  destruct (free_shrink_released km gfp sz fl pre pc 2 els elems
              (released elems 0 0 k)) as (elems' & _ & Hs); [lia | lia |].
  exists elems'. split.
  - unfold __qmempool_free_to_slab. unfold bind at 1.
    change (Z.to_nat QMEMPOOL_BULK) with 16%nat.
    change (Z.to_nat QMEMPOOL_REFILL_MULTIPLIER) with 2%nat.
    rewrite (free_bulk_released _ elems 16 0 k) by lia.
    rewrite drop_0, take_ge by lia. cbn [kmem].
    unfold bind. rewrite Hs. unfold ret. cbn [fst snd].
    rewrite released_released. reflexivity.
  - unfold reclaimed. rewrite length_app, length_take. lia.
Qed.

Lemma free_to_slab_reclaims_witness :
  exists elems',
    __qmempool_free_to_slab pool_full batch_100 (kernel0 [] [] 1)
    = Done (true,
            set_sharedq
              (Some (with_elems ring_full (drop 32 (rq_elems ring_full))))
              pool_full,
            elems')
        (released (batch_100 ++ take 32 (rq_elems ring_full)) 0 0
           (kernel0 [] [] 1))
    /\ Z.of_nat (length (batch_100 ++ take 32 (rq_elems ring_full)))
       = 16 * (2 + 1).
Proof.
  apply (free_to_slab_reclaims pool_full ring_full batch_100 (kernel0 [] [] 1)).
  - reflexivity.
  - reflexivity.
  - reflexivity.
  - reflexivity.
Defined.

(** ** Refilling a local cache from the shared queue *)

Section AllocFromSharedq.

Variables (pool : qmempool) (sq lq : ring_queue) (gfp : Z) (k : kernel).
Hypothesis Hsq : sharedq pool = Some sq.

Lemma sharedq_dequeue_hit :
  QMEMPOOL_BULK <= ring_queue_count sq ->
  ring_queue_mc_dequeue_bulk sq elems_on_stack (u32 QMEMPOOL_BULK)
  = (0, with_elems sq (drop 16 (rq_elems sq)), take 16 (rq_elems sq) ++ []).
Proof.
  intros Hc. unfold ring_queue_mc_dequeue_bulk, dequeue_bulk.
  change (u32 QMEMPOOL_BULK) with 16. apply Z.leb_le in Hc.
  unfold QMEMPOOL_BULK in Hc. rewrite Hc. reflexivity.
Qed.

Lemma batch_length :
  QMEMPOOL_BULK <= ring_queue_count sq -> length (take 16 (rq_elems sq)) = 16%nat.
Proof.
  unfold ring_queue_count, QMEMPOOL_BULK. intros Hc.
  rewrite length_take. lia.
Qed.

Lemma sharedq_refill_hit :
  QMEMPOOL_BULK <= ring_queue_count sq ->
  QMEMPOOL_BULK - 1 <= ring_queue_free_count lq ->
  __qmempool_alloc_from_sharedq pool gfp (Some lq) k
  = Done (nth 0 (take 16 (rq_elems sq)) NULL,
          set_sharedq (Some (with_elems sq (drop 16 (rq_elems sq)))) pool,
          Some (with_elems lq
                  (rq_elems lq ++ drop 1 (take 16 (rq_elems sq))))) k.
Proof.
  intros Hc Hf. pose proof (batch_length Hc) as Hb.
  unfold __qmempool_alloc_from_sharedq. rewrite Hsq.
  unfold bind at 1. unfold deref at 1.
  rewrite (sharedq_dequeue_hit Hc). cbn [Z.eqb].
  rewrite app_nil_r. unfold bind at 1. unfold deref at 1.
  unfold ring_queue_sp_enqueue_bulk, enqueue_bulk.
  change (u32 (QMEMPOOL_BULK - 1)) with 15.
  apply Z.leb_le in Hf. change (QMEMPOOL_BULK - 1) with 15 in Hf.
  rewrite Hf. unfold bind, BUG_ON, ret. cbn [Z.ltb Z.compare].
  rewrite (take_ge (drop 1 (take 16 (rq_elems sq))))
    by (rewrite length_drop; lia).
  reflexivity.
Qed.

Lemma sharedq_refill_bug :
  QMEMPOOL_BULK <= ring_queue_count sq ->
  ring_queue_free_count lq < QMEMPOOL_BULK - 1 ->
  __qmempool_alloc_from_sharedq pool gfp (Some lq) k = Fatal BUG k.
Proof.
  intros Hc Hf.
  unfold __qmempool_alloc_from_sharedq. rewrite Hsq.
  unfold bind at 1. unfold deref at 1.
  rewrite (sharedq_dequeue_hit Hc). cbn [Z.eqb].
  unfold bind at 1. unfold deref at 1.
  unfold ring_queue_sp_enqueue_bulk, enqueue_bulk.
  change (u32 (QMEMPOOL_BULK - 1)) with 15.
  apply Z.leb_gt in Hf. change (QMEMPOOL_BULK - 1) with 15 in Hf.
  rewrite Hf. reflexivity.
Qed.

Lemma sharedq_refill_miss localq :
  ring_queue_count sq < QMEMPOOL_BULK ->
  __qmempool_alloc_from_sharedq pool gfp localq k
  = Done (NULL, pool, localq) k.
Proof.
  intros Hc.
  unfold __qmempool_alloc_from_sharedq. rewrite Hsq.
  unfold bind at 1. unfold deref at 1.
  unfold ring_queue_mc_dequeue_bulk, dequeue_bulk.
  change (u32 QMEMPOOL_BULK) with 16. apply Z.leb_gt in Hc.
  unfold QMEMPOOL_BULK in Hc. rewrite Hc. reflexivity.
Qed.

End AllocFromSharedq.

(** C6.  In [__qmempool_alloc_from_sharedq]: when the bulk dequeue of
    [BULK] elements from the shared queue succeeds, the function returns
    element 0 of the batch and bulk-enqueues elements 1 to [BULK - 1], in
    order, behind the content of the local queue (a local queue without
    room for them trips the [BUG_ON] instead); when the bulk dequeue fails
    it returns NULL and both queues are as they were. *)
Theorem alloc_from_sharedq_batch
    (pool : qmempool) (sq lq : ring_queue) (gfp : Z) (k : kernel) :
  sharedq pool = Some sq ->
  let batch := take (Z.to_nat QMEMPOOL_BULK) (rq_elems sq) in
  let rest := drop (Z.to_nat QMEMPOOL_BULK) (rq_elems sq) in
  (QMEMPOOL_BULK <= ring_queue_count sq ->
     Z.of_nat (length (drop 1 batch)) = QMEMPOOL_BULK - 1 /\
     (QMEMPOOL_BULK - 1 <= ring_queue_free_count lq ->
        __qmempool_alloc_from_sharedq pool gfp (Some lq) k
        = Done (nth 0 batch NULL,
                set_sharedq (Some (with_elems sq rest)) pool,
                Some (with_elems lq (rq_elems lq ++ drop 1 batch))) k) /\
     (ring_queue_free_count lq < QMEMPOOL_BULK - 1 ->
        __qmempool_alloc_from_sharedq pool gfp (Some lq) k = Fatal BUG k))
  /\
  (ring_queue_count sq < QMEMPOOL_BULK ->
     __qmempool_alloc_from_sharedq pool gfp (Some lq) k
     = Done (NULL, pool, Some lq) k).
Proof.
  intros Hsq batch rest. subst batch rest.
  change (Z.to_nat QMEMPOOL_BULK) with 16%nat. split.
  - intros Hc. split; [| split].
    + rewrite length_drop, (batch_length sq Hc). reflexivity.
    + intros Hf. now apply sharedq_refill_hit.
    + intros Hf. now apply sharedq_refill_bug with (sq := sq).
  - intros Hc. now apply sharedq_refill_miss with (sq := sq).
Qed.

Lemma alloc_from_sharedq_batch_witness :
  __qmempool_alloc_from_sharedq pool_full 0 (Some (mk_ring 16 3 []))
    (kernel0 [] [] 1)
  = Done (200,
          mk_pool 1 0 (Some (mk_ring 64 0 (Z.of_nat <$> seq 216 47))) 0 None,
          Some (mk_ring 16 3 (Z.of_nat <$> seq 201 15)))
      (kernel0 [] [] 1).
Proof.
  refine (proj1 (proj2 (proj1
    (alloc_from_sharedq_batch pool_full ring_full (mk_ring 16 3 []) 0
       (kernel0 [] [] 1) eq_refl) _)) _).
  - vm_compute. discriminate.
  - vm_compute. discriminate.
Defined.

(** C7.  With the local queue empty and of a size of at least [BULK], the
    bulk enqueue of [BULK - 1] elements into it returns 0, whatever the
    array, so [__qmempool_alloc_from_sharedq] never ends in the [BUG_ON] on
    that enqueue (nor in any other fatal way). *)
Theorem localq_refill_cannot_fail
    (pool : qmempool) (sq lq : ring_queue) (gfp : Z) (k : kernel) :
  sharedq pool = Some sq ->
  rq_elems lq = [] ->
  QMEMPOOL_BULK <= rq_size lq ->
  (forall tbl,
     fst (ring_queue_sp_enqueue_bulk lq tbl (u32 (QMEMPOOL_BULK - 1))) = 0)
  /\ (forall f k',
        __qmempool_alloc_from_sharedq pool gfp (Some lq) k <> Fatal f k').
Proof.
  intros Hsq Hempty Hsz.
  assert (Hf : QMEMPOOL_BULK - 1 <= ring_queue_free_count lq).
  { unfold ring_queue_free_count, ring_queue_count. rewrite Hempty.
    cbn [length]. lia. }
  split.
  - intros tbl. unfold ring_queue_sp_enqueue_bulk, enqueue_bulk.
    change (u32 (QMEMPOOL_BULK - 1)) with (QMEMPOOL_BULK - 1).
    apply Z.leb_le in Hf. now rewrite Hf.
  - intros f k'.
    destruct (Z.le_gt_cases QMEMPOOL_BULK (ring_queue_count sq)) as [Hc | Hc].
    + now rewrite (sharedq_refill_hit pool sq lq gfp k Hsq Hc Hf).
    + now rewrite (sharedq_refill_miss pool sq gfp k Hsq (Some lq) Hc).
Qed.

Lemma localq_refill_cannot_fail_witness :
  fst (ring_queue_sp_enqueue_bulk (mk_ring 16 3 []) (drop 1 batch_100)
         (u32 (QMEMPOOL_BULK - 1))) = 0.
Proof.
  apply (proj1 (localq_refill_cannot_fail pool_full ring_full
                  (mk_ring 16 3 []) 0 (kernel0 [] [] 1)
                  eq_refl eq_refl ltac:(vm_compute; discriminate))).
Defined.

(** ** Drawing elements from the slab *)

Lemma kmem_cache_alloc_step kmem gfp k :
  kmem_cache_alloc kmem gfp k = Done (slab_next k) (slab_step k).
Proof.
  destruct k as [sl c g f mf h r n]. destruct sl as [| e rest]; reflexivity.
Qed.

Lemma slab_took_nil rest k : slab k = rest -> slab_took [] rest k = k.
Proof.
  intros <-. destruct k. unfold slab_took. cbn.
  rewrite app_nil_r. f_equal. lia.
Qed.

Lemma slab_step_took e es rest k :
  slab k = e :: es ++ rest -> nonnull e ->
  slab_next k = e /\
  slab_took es rest (slab_step k) = slab_took (e :: es) rest k.
Proof.
  intros Hs He. unfold slab_next, slab_took, slab_step, slab_next.
  rewrite Hs. cbn [hd tl slab slab_calls slab_got slab_freed mem_faults
                   heap_objs ring_objs possible_cpus length].
  apply Z.eqb_neq in He. rewrite He, <- app_assoc. split; [reflexivity |].
  cbn [app]. f_equal. lia.
Qed.

(** The inner loop while the slab delivers: after [m] successful
    allocations the loop stands at index [j + m] with slots [j] to
    [j + m - 1] of the array filled. *)
Lemma slab_fill_prefix pool gfp m : forall n j elems es rest k,
  slab k = es ++ rest ->
  length es = m ->
  Forall nonnull es ->
  (j + m <= length elems)%nat ->
  slab_fill (m + n) (Z.of_nat j) elems pool gfp k
  = slab_fill n (Z.of_nat (j + m))
      (take j elems ++ es ++ drop (j + m) elems) pool gfp
      (slab_took es rest k).
Proof.
  induction m as [| m IH]; intros n j elems es rest k Hs Hl Hnn Hj.
  - destruct es; [| discriminate]. cbn [app] in *.
    rewrite Nat.add_0_r, take_drop, slab_took_nil by assumption. reflexivity.
  - destruct es as [| e es]; [discriminate |].
    inversion Hnn as [| ? ? He Hes]; subst. cbn [length] in Hl.
    destruct (slab_step_took e es rest k Hs He) as [Hnext Htook].
    cbn [Nat.add slab_fill]. unfold bind at 1.
    rewrite kmem_cache_alloc_step, Hnext.
    apply Z.eqb_neq in He. rewrite He.
    replace (Z.of_nat j + 1) with (Z.of_nat (S j)) by lia.
    rewrite Nat2Z.id.
    rewrite (IH n (S j) (<[j := e]> elems) es rest (slab_step k)).
    + rewrite Htook.
      replace (j + S m)%nat with (S j + m)%nat by lia.
      rewrite (take_S_r _ _ e)
        by (rewrite list_lookup_insert_eq; [reflexivity | lia]).
      rewrite take_insert_ge by lia.
      rewrite drop_insert_lt by lia.
      rewrite <- app_assoc. reflexivity.
    + unfold slab_step. cbn [slab]. now rewrite Hs.
    + lia.
    + exact Hes.
    + rewrite length_insert. lia.
Qed.

Lemma slab_fill_all pool gfp elems es rest k :
  slab k = es ++ rest ->
  length es = 16%nat ->
  length elems = 16%nat ->
  Forall nonnull es ->
  slab_fill (Z.to_nat QMEMPOOL_BULK) 0 elems pool gfp k
  = Done (inl es) (slab_took es rest k).
Proof.
  intros Hs Hl Hel Hnn.
  change (Z.to_nat QMEMPOOL_BULK) with (16 + 0)%nat.
  change 0 with (Z.of_nat 0).
  rewrite (slab_fill_prefix pool gfp 16 0 0 elems es rest k) by (auto; lia).
  cbn [slab_fill]. unfold ret. rewrite take_0, drop_ge by lia.
  now rewrite app_nil_r.
Qed.

(** The refill loop while the slab delivers and the shared queue has room:
    every round appends its [BULK] elements to the shared queue. *)
Lemma slab_refill_all km g sz fl pre pc gfp rounds :
  forall elems els es rest k,
  slab k = es ++ rest ->
  length es = (16 * rounds)%nat ->
  length elems = 16%nat ->
  Forall nonnull es ->
  Z.of_nat (length els) + Z.of_nat (16 * rounds) <= sz - 1 ->
  slab_refill rounds elems (mk_pool km g (Some (mk_ring sz fl els)) pre pc)
    gfp k
  = Done (mk_pool km g (Some (mk_ring sz fl (els ++ es))) pre pc)
      (slab_took es rest k).
Proof.
  induction rounds as [| rounds IH]; intros elems els es rest k Hs Hl Hel Hnn Hr.
  - destruct es; [| discriminate]. cbn [slab_refill]. unfold ret.
    rewrite app_nil_r, slab_took_nil by assumption. reflexivity.
  - set (es1 := take 16 es). set (es2 := drop 16 es).
    assert (Hsplit : es = es1 ++ es2) by (symmetry; apply take_drop).
    assert (Hl1 : length es1 = 16%nat)
      by (unfold es1; rewrite length_take; lia).
    assert (Hl2 : length es2 = (16 * rounds)%nat)
      by (unfold es2; rewrite length_drop; lia).
    assert (Hnn1 : Forall nonnull es1) by (now apply Forall_take).
    assert (Hnn2 : Forall nonnull es2) by (now apply Forall_drop).
    clearbody es1 es2. subst es. rewrite <- app_assoc in Hs.
    cbn [slab_refill]. unfold bind at 1.
    rewrite (slab_fill_all _ gfp elems es1 (es2 ++ rest) k) by auto.
    cbn [sharedq]. unfold bind at 1. unfold deref at 1.
    unfold ring_queue_mp_enqueue_bulk, enqueue_bulk, ring_queue_free_count,
      ring_queue_count.
    cbn [rq_size rq_elems rq_flags with_elems].
    change (u32 QMEMPOOL_BULK) with 16.
    replace (16 <=? sz - 1 - Z.of_nat (length els)) with true
      by (symmetry; apply Z.leb_le; lia).
    unfold bind at 1. unfold BUG_ON at 1. cbn [Z.ltb Z.compare].
    unfold set_sharedq. cbn [kmem gfp_mask prealloc percpu].
    change (Z.to_nat 16) with 16%nat. rewrite take_ge by lia.
    unfold with_elems. cbn [rq_size rq_flags rq_elems].
    rewrite (IH es1 (els ++ es1) es2 rest (slab_took es1 (es2 ++ rest) k));
      try assumption.
    + unfold slab_took.
      cbn [slab slab_calls slab_got slab_freed mem_faults heap_objs
                ring_objs possible_cpus].
      rewrite length_app, <- !app_assoc. do 2 f_equal. lia.
    + reflexivity.
    + rewrite length_app. lia.
Qed.

(** The refill loop never touches the per-CPU table. *)
Lemma slab_fill_percpu gfp n : forall j elems pool k pool' k',
  slab_fill n j elems pool gfp k = Done (inr pool') k' ->
  percpu pool' = percpu pool.
Proof.
  induction n as [| n IH]; intros j elems pool k pool' k' H.
  - discriminate H.
  - cbn [slab_fill] in H. unfold bind at 1 in H.
    rewrite kmem_cache_alloc_step in H.
    destruct (slab_next k =? NULL).
    + unfold bind, deref in H. destruct (sharedq pool) as [sq |];
        [| discriminate].
      destruct (ring_queue_mp_enqueue_bulk sq _ _) as [res sq'].
      unfold BUG_ON, ret in H. destruct (res <? 0); [discriminate |].
      inversion H. reflexivity.
    + now apply IH in H.
Qed.

Lemma slab_refill_percpu gfp rounds : forall elems pool k pool' k',
  slab_refill rounds elems pool gfp k = Done pool' k' ->
  percpu pool' = percpu pool.
Proof.
  induction rounds as [| rounds IH]; intros elems pool k pool' k' H.
  - inversion H. reflexivity.
  - cbn [slab_refill] in H. unfold bind at 1 in H.
    destruct (slab_fill _ 0 elems pool gfp k) as [[elems1 | pool1] k1 | f k1]
      eqn:Hfill; [| | discriminate].
    + unfold bind, deref in H. destruct (sharedq pool) as [sq |];
        [| discriminate].
      destruct (ring_queue_mp_enqueue_bulk sq _ _) as [res sq'].
      unfold BUG_ON in H. destruct (res <? 0); [discriminate |].
      apply IH in H. exact H.
    + inversion H; subst. now apply slab_fill_percpu in Hfill.
Qed.

(** C9.  [__qmempool_alloc_from_slab] never modifies the per-CPU table:
    whenever it returns, with an element or with NULL, every local cache
    has the ring, the content and the counters it had. *)
Theorem alloc_from_slab_keeps_localq
    (pool : qmempool) (gfp : Z) (k : kernel)
    (e : ptr) (pool' : qmempool) (k' : kernel) :
  __qmempool_alloc_from_slab pool gfp k = Done (e, pool') k' ->
  percpu pool' = percpu pool
  /\ forall cpu, local_elems pool' cpu = local_elems pool cpu
                 /\ local_count pool' cpu = local_count pool cpu.
Proof.
  intros H.
  assert (Hp : percpu pool' = percpu pool).
  { unfold __qmempool_alloc_from_slab in H. unfold bind at 1 in H.
    rewrite kmem_cache_alloc_step in H.
    destruct (slab_next k =? NULL).
    - inversion H. reflexivity.
    - unfold bind in H.
      destruct (slab_refill _ _ pool gfp (slab_step k)) as [p1 k1 | f k1]
        eqn:Hr; [| discriminate].
      inversion H; subst. now apply slab_refill_percpu in Hr. }
  split; [exact Hp |].
  intros cpu. unfold local_count, local_elems. now rewrite Hp.
Qed.

Lemma alloc_from_slab_keeps_localq_witness :
  percpu (mk_pool 1 0 (Some (mk_ring 64 0 [101])) 0
            (Some [mk_percpu (Some (mk_ring 16 3 [])) 0 0 (-1)]))
  = percpu pool_16_64.
Proof.
  refine (proj1 (alloc_from_slab_keeps_localq pool_16_64 0
                   (kernel0 [100; 101; 102] [] 1) 100 _
                   (mk_kernel [] 4 [100; 101; 102] [] [] 0 0 1) _)).
  vm_compute. reflexivity.
Defined.

(** The out-of-memory exit.  In [__qmempool_alloc_from_slab] the first
    [kmem_cache_alloc] serves the caller.  The function returns NULL if and
    only if that allocation fails; then it has made that one slab call and
    no other, obtained and freed nothing, and left the pool as it was.  When
    the allocation succeeds, a return, if there is one, hands out that very
    element. *)
Theorem alloc_from_slab_out_of_memory (pool : qmempool) (gfp : Z) (k : kernel) :
  kmem_cache_alloc (kmem pool) gfp k = Done (slab_next k) (slab_step k)
  /\ ((exists pool' k',
         __qmempool_alloc_from_slab pool gfp k = Done (NULL, pool') k')
      <-> slab_next k = NULL)
  /\ (slab_next k = NULL ->
      __qmempool_alloc_from_slab pool gfp k = Done (NULL, pool) (slab_step k)
      /\ slab_calls (slab_step k) = slab_calls k + 1
      /\ slab_got (slab_step k) = slab_got k
      /\ slab_freed (slab_step k) = slab_freed k)
  /\ (slab_next k <> NULL ->
      forall e pool' k',
        __qmempool_alloc_from_slab pool gfp k = Done (e, pool') k' ->
        e = slab_next k).
Proof.
  assert (Hnull : slab_next k = NULL ->
            __qmempool_alloc_from_slab pool gfp k
            = Done (NULL, pool) (slab_step k)).
  { intros E. unfold __qmempool_alloc_from_slab, bind.
    rewrite kmem_cache_alloc_step, E. reflexivity. }
  assert (Hsome : slab_next k <> NULL ->
            forall e pool' k',
              __qmempool_alloc_from_slab pool gfp k = Done (e, pool') k' ->
              e = slab_next k).
  { intros NE e pool' k' H.
    unfold __qmempool_alloc_from_slab in H. unfold bind at 1 in H.
    rewrite kmem_cache_alloc_step in H.
    apply Z.eqb_neq in NE. rewrite NE in H. unfold bind in H.
    destruct (slab_refill _ _ pool gfp (slab_step k)) as [p1 k1 | f k1];
      [| discriminate].
    inversion H. reflexivity. }
  split; [apply kmem_cache_alloc_step |]. split; [| split].
  - split.
    + intros (pool' & k' & H).
      destruct (Z.eq_dec (slab_next k) NULL) as [E | NE]; [exact E |].
      symmetry. exact (Hsome NE _ _ _ H).
    + intros E. exists pool, (slab_step k). now apply Hnull.
  - intros E. split; [now apply Hnull |].
    unfold slab_step. cbn. rewrite E. repeat split; reflexivity.
  - exact Hsome.
Qed.

(** C5 on the code.  The slab serves the caller's element, 100, and then
    gives out.  The direct allocation has succeeded, so the caller's
    request is satisfied and the call is to return 100; but the first
    allocation of the first refill round fails at [j = 0], the code
    enqueues [j - 1] elements, the count -1 is 4294967295 as an
    [unsigned], the enqueue is refused and the [BUG_ON] fires.  The caller
    sees a failure that is not the NULL of a failed direct allocation, and
    the element 100 is lost. *)
Lemma alloc_from_slab_crash_after_success :
  kmem_cache_alloc (kmem pool_16_64) 0 (kernel0 [100] [] 1)
  = Done 100 (mk_kernel [] 1 [100] [] [] 0 0 1)
  /\ __qmempool_alloc_from_slab pool_16_64 0 (kernel0 [100] [] 1)
     = Fatal BUG (mk_kernel [] 2 [100] [] [] 0 0 1)
  /\ forall r k',
       __qmempool_alloc_from_slab pool_16_64 0 (kernel0 [100] [] 1)
       <> Done r k'.
Proof.
  split; [vm_compute; reflexivity |].
  assert (H : __qmempool_alloc_from_slab pool_16_64 0 (kernel0 [100] [] 1)
              = Fatal BUG (mk_kernel [] 2 [100] [] [] 0 0 1))
    by (vm_compute; reflexivity).
  split; [exact H |]. intros r k'. rewrite H. discriminate.
Qed.

(** ** A first allocation from an empty pool *)

Lemma alloc_from_slab_all km g sz fl pre pc gfp e es rest k :
  slab k = e :: es ++ rest ->
  length es = 32%nat ->
  Forall nonnull (e :: es) ->
  32 < sz ->
  __qmempool_alloc_from_slab
    (mk_pool km g (Some (mk_ring sz fl [])) pre pc) gfp k
  = Done (e, mk_pool km g (Some (mk_ring sz fl es)) pre pc)
      (slab_took (e :: es) rest k).
Proof.
  intros Hs Hl Hnn Hsz. inversion Hnn as [| ? ? He Hes]; subst.
  destruct (slab_step_took e es rest k Hs He) as [Hnext Htook].
  unfold __qmempool_alloc_from_slab. unfold bind at 1.
  rewrite kmem_cache_alloc_step, Hnext.
  apply Z.eqb_neq in He. rewrite He. unfold bind.
  change (Z.to_nat QMEMPOOL_REFILL_MULTIPLIER) with 2%nat.
  rewrite (slab_refill_all km g sz fl pre pc gfp 2 elems_on_stack [] es rest
             (slab_step k)).
  - unfold ret. now rewrite Htook.
  - unfold slab_step. cbn [slab]. now rewrite Hs.
  - exact Hl.
  - reflexivity.
  - exact Hes.
  - cbn [length]. lia.
Qed.

(** C1, as the code has it.  Starting from an empty shared queue (of a size
    [qmempool_create] accepts) and an empty local cache, with a slab that
    serves the [1 + REFILL_MULTIPLIER * BULK] requests with distinct
    elements, one [qmempool_alloc] makes [1 + REFILL_MULTIPLIER * BULK]
    slab calls, returns the first element, leaves the shared queue holding
    the other [REFILL_MULTIPLIER * BULK] elements and the local cache
    empty; the returned element is none of the retained ones. *)
Theorem alloc_from_empty_pool
    (pool : qmempool) (gfp : Z) (cpu : nat) (tbl : list qmempool_percpu)
    (c : qmempool_percpu) (lq sq : ring_queue)
    (e : ptr) (es rest : list ptr) (k : kernel) :
  percpu pool = Some tbl -> tbl !! cpu = Some c -> localq c = Some lq ->
  rq_elems lq = [] ->
  sharedq pool = Some sq -> rq_elems sq = [] ->
  QMEMPOOL_BULK * QMEMPOOL_REFILL_MULTIPLIER < rq_size sq ->
  slab k = e :: es ++ rest ->
  Z.of_nat (length es) = QMEMPOOL_REFILL_MULTIPLIER * QMEMPOOL_BULK ->
  Forall nonnull (e :: es) ->
  NoDup (e :: es) ->
  exists pool' k',
    qmempool_alloc pool gfp cpu k = Done (e, pool') k'
    /\ slab_calls k'
       = slab_calls k + 1 + QMEMPOOL_REFILL_MULTIPLIER * QMEMPOOL_BULK
    /\ shared_elems pool' = es
    /\ shared_count pool' = QMEMPOOL_REFILL_MULTIPLIER * QMEMPOOL_BULK
    /\ local_count pool' cpu = 0
    /\ e ∉ shared_elems pool' ++ local_elems pool' cpu.
Proof.
  intros Hpc Hc Hlq Hlqe Hsq Hsqe Hsz Hs Hl Hnn Hnd.
  unfold QMEMPOOL_BULK, QMEMPOOL_REFILL_MULTIPLIER in *.
  destruct pool as [km g sq0 pre pc]. cbn [percpu sharedq] in *. subst.
  destruct sq as [sz fl els]. cbn [rq_elems rq_size] in *. subst.
  exists (mk_pool km g (Some (mk_ring sz fl es)) pre (Some tbl)),
         (slab_took (e :: es) rest k).
  split; [| split; [| split; [| split; [| split]]]].
  - unfold qmempool_alloc. cbn [percpu].
    unfold bind at 1. unfold deref at 1. unfold bind at 1. rewrite Hc.
    unfold deref at 1. unfold bind at 1. rewrite Hlq. unfold deref at 1.
    unfold ring_queue_sc_dequeue, ring_queue_dequeue. rewrite Hlqe.
    change (- ENOENT =? 0) with false. cbv iota. unfold bind at 1.
    rewrite (sharedq_refill_miss
               (mk_pool km g (Some (mk_ring sz fl [])) pre (Some tbl))
               (mk_ring sz fl []) gfp k eq_refl)
      by (vm_compute; reflexivity).
    cbn [Z.eqb NULL negb].
    apply alloc_from_slab_all; auto; lia.
  - unfold slab_took. cbn [slab_calls length]. lia.
  - reflexivity.
  - unfold shared_count, ring_queue_count. cbn [sharedq rq_elems]. lia.
  - unfold local_count, local_elems. cbn [percpu]. now rewrite Hc, Hlq, Hlqe.
  - unfold shared_elems, local_elems. cbn [percpu sharedq rq_elems].
    rewrite Hc, Hlq, Hlqe, app_nil_r. now apply NoDup_cons_1_1.
Qed.

Lemma alloc_from_empty_pool_witness :
  exists pool' k',
    qmempool_alloc pool_16_64 0 0 (kernel0 slab_100 [] 1)
    = Done (100, pool') k'
    /\ slab_calls k' = 0 + 1 + 2 * 16
    /\ shared_elems pool' = Z.of_nat <$> seq 101 32
    /\ shared_count pool' = 2 * 16
    /\ local_count pool' 0 = 0
    /\ 100 ∉ shared_elems pool' ++ local_elems pool' 0.
Proof.
  apply (alloc_from_empty_pool pool_16_64 0 0
           [mk_percpu (Some (mk_ring 16 3 [])) 0 0 (-1)]
           (mk_percpu (Some (mk_ring 16 3 [])) 0 0 (-1))
           (mk_ring 16 3 []) (mk_ring 64 0 [])
           100 (Z.of_nat <$> seq 101 32) (Z.of_nat <$> seq 133 7)
           (kernel0 slab_100 [] 1)).
  - reflexivity.
  - reflexivity.
  - reflexivity.
  - reflexivity.
  - reflexivity.
  - reflexivity.
  - reflexivity.
  - reflexivity.
  - reflexivity.
  - apply Forall_forall. intros x Hx.
    apply list_elem_of_In in Hx. vm_compute in Hx. unfold nonnull, NULL.
    intuition (subst; discriminate).
  - change (NoDup (Z.of_nat <$> seq 100 33)).
    apply (NoDup_fmap_2 Z.of_nat), NoDup_seq.
Defined.

(** C1 as stated fails: on the pool of 64 and 16 slots with both tiers
    empty the allocation leaves 32 elements in the shared queue, not 16,
    and none in the local cache, not 15. *)
Lemma refill_claim_counterexample :
  shared_elems pool_16_64 = [] /\ local_elems pool_16_64 0 = [] /\
  ~ refill_claim_as_stated pool_16_64 0 (kernel0 slab_100 [] 1).
Proof.
  split; [reflexivity |]. split; [reflexivity |].
  intros (e & pool' & k' & H & _ & Hshared & _).
  vm_compute in H. inversion H; subst. vm_compute in Hshared.
  discriminate Hshared.
Qed.

(** ** C2: a refill round cut short by the slab *)

(** C2 on the code.  The slab serves 100 to the caller, then 101 and 102
    into the round, then NULL at [j = 2]: the code enqueues [j - 1 = 1]
    element.  The call returns 100 and the shared queue holds 101 only; 102
    was obtained from the slab and is neither queued, nor returned, nor
    freed. *)
Lemma alloc_from_slab_short_round :
  __qmempool_alloc_from_slab pool_16_64 0 (kernel0 [100; 101; 102] [] 1)
  = Done (100,
          mk_pool 1 0 (Some (mk_ring 64 0 [101])) 0 (percpu pool_16_64))
      (mk_kernel [] 4 [100; 101; 102] [] [] 0 0 1).
Proof. vm_compute. reflexivity. Qed.

(** The same slip when the slab fails on the first element of a round
    ([j = 0]): the count [j - 1] becomes the [unsigned] 4294967295, the
    enqueue is refused and the [BUG_ON] fires, although the caller's
    element was obtained. *)
Lemma alloc_from_slab_empty_round :
  __qmempool_alloc_from_slab pool_16_64 0 (kernel0 [100] [] 1)
  = Fatal BUG (mk_kernel [] 2 [100] [] [] 0 0 1).
Proof. vm_compute. reflexivity. Qed.

(** ** C4: rolling back a failed creation *)

(** C4 on the code.  One CPU; the pool record, the shared ring and the
    per-CPU table are obtained, 16 elements are preallocated, and the
    creation of the local ring fails.  [qmempool_destroy] then hands the
    NULL [cpu->localq] to [ring_queue_dequeue]: the call does not return,
    and the 16 elements, two records and one ring are still allocated. *)
Lemma create_localq_failure :
  qmempool_create 16 64 16 1 0
    (kernel0 (Z.of_nat <$> seq 100 16) [false; false; false; true] 1)
  = Fatal NULL_DEREF
      (mk_kernel [] 16 (Z.of_nat <$> seq 100 16) [] [] 2 1 1).
Proof. vm_compute. reflexivity. Qed.

(** *** What the creation does on its other paths *)

Lemma rolled_back_refl k : rolled_back k k.
Proof.
  repeat split. exists []. now rewrite !app_nil_r.
Qed.

(** The preallocation loop, from a shared ring holding [els]: either it
    completes with [n] more elements in the ring, or it returns NULL from
    the rollback, which gave back the ring's content, the ring and the
    pool record. *)
Lemma create_prealloc_result km g sz fl pre n : forall els k r k',
  create_prealloc n (mk_pool km g (Some (mk_ring sz fl els)) pre None) k
  = Done r k' ->
  match r with
  | Some p =>
      exists es,
        p = mk_pool km g (Some (mk_ring sz fl (els ++ es))) pre None /\
        length es = n /\
        slab_got k' = slab_got k ++ es /\ slab_freed k' = slab_freed k /\
        heap_objs k' = heap_objs k /\ ring_objs k' = ring_objs k /\
        mem_faults k' = mem_faults k /\ possible_cpus k' = possible_cpus k
  | None =>
      exists es,
        slab_got k' = slab_got k ++ es /\
        slab_freed k' = slab_freed k ++ els ++ es /\
        heap_objs k' = heap_objs k - 1 /\ ring_objs k' = ring_objs k - 1
  end.
Proof.
  induction n as [| n IH]; intros els k r k' H.
  - inversion H; subst. exists []. rewrite !app_nil_r. repeat split.
  - cbn [create_prealloc] in H. unfold bind at 1 in H.
    cbn [kmem gfp_mask] in H. rewrite kmem_cache_alloc_step in H.
    destruct (slab_next k =? NULL) eqn:E.
    + unfold bind in H.
      rewrite (destroy_releases _ (slab_step k)) in H by (intros cpus Hcpus; discriminate Hcpus).
      inversion H; subst. exists [].
      unfold released, slab_step, pool_elems, shared_elems.
      cbn. rewrite E, !app_nil_r. repeat split.
    + cbn [sharedq] in H. unfold bind at 1 in H. unfold deref at 1 in H.
      destruct (ring_queue_enqueue (mk_ring sz fl els) (slab_next k))
        as [res q'] eqn:Hq.
      unfold ring_queue_enqueue, enqueue_bulk in Hq.
      destruct (1 <=? ring_queue_free_count (mk_ring sz fl els));
        inversion Hq; subst; clear Hq.
      * unfold bind at 1 in H. unfold BUG_ON at 1 in H.
        cbn [Z.ltb Z.compare] in H.
        unfold set_sharedq, with_elems in H.
        cbn [kmem gfp_mask prealloc percpu rq_size rq_flags rq_elems
             Z.to_nat Pos.to_nat Pos.iter_op Nat.add take] in H.
        apply IH in H. unfold slab_step in H. cbn in H. rewrite E in H.
        destruct r as [p |].
        -- destruct H as (es & -> & Hl & Hg & Hf & Hh & Hr & Hm & Hp).
           exists (slab_next k :: es). rewrite <- app_assoc in *. cbn [app] in *.
           repeat split; try assumption. cbn [length]. now rewrite Hl.
        -- destruct H as (es & Hg & Hf & Hh & Hr).
           exists (slab_next k :: es). rewrite <- !app_assoc in *.
           cbn [app] in *. repeat split; assumption.
      * discriminate H.
Qed.

(** The local-ring loop never returns NULL: when a ring cannot be created,
    the rollback runs into the NULL [localq] it has just stored. *)
Lemma create_localqs_never_null lsz km g sq pre n : forall j tbl k k',
  Forall localq_live (take j tbl) ->
  create_localqs n j lsz (mk_pool km g sq pre (Some tbl)) k <> Done None k'.
Proof.
  induction n as [| n IH]; intros j tbl k k' Hlive H.
  - discriminate H.
  - cbn [create_localqs percpu] in H.
    unfold bind at 1 in H. unfold deref at 1 in H.
    unfold bind at 1 in H. unfold deref at 1 in H.
    destruct (tbl !! j) as [cpu |] eqn:Hj; [| discriminate].
    pose proof (lookup_lt_Some _ _ _ Hj) as Hlt.
    unfold bind at 1 in H. unfold ring_queue_create at 1 in H.
    destruct (next_fault k) as [fails rest].
    destruct fails.
    + unfold set_percpu in H. cbn [kmem gfp_mask sharedq prealloc] in H.
      unfold bind at 1 in H.
      rewrite insert_take_drop in H by exact Hlt.
      match type of H with
      | context [qmempool_destroy ?p ?k0] =>
          destruct (destroy_null_localq km g sq pre (take j tbl)
                      (mk_percpu None (refill_cnt cpu) (full_cnt cpu)
                         (owner_cpu cpu))
                      (drop (S j) tbl) k0 Hlive eq_refl) as [k1 Hk1];
          rewrite Hk1 in H
      end.
      discriminate H.
    + unfold set_percpu in H. cbn [kmem gfp_mask sharedq prealloc] in H.
      apply IH in H; [exact H |].
      rewrite (take_S_r _ _ (mk_percpu (Some (mk_ring lsz
                 (Z.lor RING_F_SP_ENQ RING_F_SC_DEQ) [])) 0 0 (-1)))
        by (now apply list_lookup_insert_eq).
      rewrite take_insert_ge by lia.
      apply Forall_app. split; [exact Hlive |].
      constructor; [discriminate | constructor].
Qed.

Lemma rolled_back_intro k k' es :
  heap_objs k' = heap_objs k ->
  ring_objs k' = ring_objs k ->
  slab_got k' = slab_got k ++ es ->
  slab_freed k' = slab_freed k ++ es ->
  rolled_back k k'.
Proof.
  intros Hh Hr Hg Hf. split; [exact Hh |]. split; [exact Hr |].
  exists es. split; assumption.
Qed.

(** Whenever [qmempool_create] returns NULL, everything it had obtained
    is released again.  (The failure it does not survive is the one of
    [create_localq_failure].) *)
Lemma create_error_rolled_back lsz ssz pre km g k k' :
  qmempool_create lsz ssz pre km g k = Done None k' -> rolled_back k k'.
Proof.
  intros H. unfold qmempool_create in H.
  destruct (lsz <? QMEMPOOL_BULK);
    [inversion H; apply rolled_back_refl |].
  destruct (ssz <=? QMEMPOOL_BULK * QMEMPOOL_REFILL_MULTIPLIER);
    [inversion H; apply rolled_back_refl |].
  destruct (negb (POWEROF2 lsz) || negb (POWEROF2 ssz));
    [inversion H; apply rolled_back_refl |].
  destruct (pre >=? ssz); [inversion H; apply rolled_back_refl |].
  destruct (km =? NULL); [inversion H; apply rolled_back_refl |].
  unfold bind at 1 in H. unfold kzalloc at 1 in H.
  destruct (next_fault k) as [f1 r1]. destruct f1; cbn [negb] in H.
  { inversion H; subst.
    apply (rolled_back_intro _ _ []); cbn; rewrite ?app_nil_r; reflexivity. }
  unfold bind at 1 in H. unfold ring_queue_create at 1 in H.
  match type of H with
  | context [next_fault ?x] => destruct (next_fault x) as [f2 r2]
  end.
  destruct f2.
  { unfold bind in H. rewrite destroy_releases in H
      by (intros cpus Hcpus; discriminate Hcpus).
    inversion H; subst.
    apply (rolled_back_intro _ _ []);
      unfold released, pool_elems, pool_records, pool_rings, shared_elems;
      cbn; rewrite ?app_nil_r; try reflexivity; lia. }
  unfold set_sharedq, set_prealloc in H.
  cbn [kmem gfp_mask sharedq prealloc percpu] in H.
  unfold bind at 1 in H.
  match type of H with
  | context [create_prealloc ?n ?p ?x] =>
      destruct (create_prealloc n p x) as [[p' |] k2 | f k2] eqn:Hpre
  end; [| | discriminate].
  - apply create_prealloc_result in Hpre.
    destruct Hpre as (es & -> & _ & Hg & Hf & Hh & Hr & Hm & Hp).
    cbn in Hg, Hf, Hh, Hr.
    unfold bind at 1 in H. unfold alloc_percpu at 1 in H.
    destruct (next_fault k2) as [f3 r3]. destruct f3.
    + unfold bind in H. rewrite destroy_releases in H
        by (intros cpus Hcpus; discriminate Hcpus).
      inversion H; subst.
      apply (rolled_back_intro _ _ es);
        unfold released, pool_elems, pool_records, pool_rings, shared_elems;
        cbn; rewrite ?Hg, ?Hf, ?Hh, ?Hr; try reflexivity; lia.
    + unfold set_percpu in H.
      cbn [kmem gfp_mask sharedq prealloc percpu] in H.
      unfold bind in H. exfalso.
      eapply create_localqs_never_null; [| exact H].
      rewrite take_0. constructor.
  - apply create_prealloc_result in Hpre.
    destruct Hpre as (es & Hg & Hf & Hh & Hr). cbn in Hg, Hf, Hh, Hr.
    inversion H; subst.
    apply (rolled_back_intro _ _ es);
      rewrite ?Hg, ?Hf, ?Hh, ?Hr; try reflexivity; lia.
Qed.

Lemma create_localqs_result lsz km g sq pre n : forall j tbl k p k',
  Forall localq_live (take j tbl) ->
  create_localqs n j lsz (mk_pool km g sq pre (Some tbl)) k = Done (Some p) k' ->
  exists tbl',
    p = mk_pool km g sq pre (Some tbl') /\
    length tbl' = length tbl /\
    Forall localq_live (take (j + n) tbl').
Proof.
  induction n as [| n IH]; intros j tbl k p k' Hlive H.
  - inversion H; subst. exists tbl. rewrite Nat.add_0_r. auto.
  - cbn [create_localqs percpu] in H.
    unfold bind at 1 in H. unfold deref at 1 in H.
    unfold bind at 1 in H. unfold deref at 1 in H.
    destruct (tbl !! j) as [cpu |] eqn:Hj; [| discriminate].
    pose proof (lookup_lt_Some _ _ _ Hj) as Hlt.
    unfold bind at 1 in H. unfold ring_queue_create at 1 in H.
    destruct (next_fault k) as [fails rest].
    destruct fails.
    + unfold bind in H.
      destruct (qmempool_destroy _ _); discriminate H.
    + unfold set_percpu in H. cbn [kmem gfp_mask sharedq prealloc] in H.
      apply IH in H.
      * destruct H as (tbl' & -> & Hlen & Hl).
        exists tbl'. rewrite length_insert in Hlen.
        replace (j + S n)%nat with (S j + n)%nat by lia. auto.
      * rewrite (take_S_r _ _ (mk_percpu (Some (mk_ring lsz
                   (Z.lor RING_F_SP_ENQ RING_F_SC_DEQ) [])) 0 0 (-1)))
          by (now apply list_lookup_insert_eq).
        rewrite take_insert_ge by lia.
        apply Forall_app. split; [exact Hlive |].
        constructor; [discriminate | constructor].
Qed.

(** No partially constructed pool is returned: a pool that
    [qmempool_create] hands out has its shared ring, holding [prealloc]
    elements, and a live local ring for every possible CPU. *)
Lemma create_success_complete lsz ssz pre km g k p k' :
  qmempool_create lsz ssz pre km g k = Done (Some p) k' ->
  exists sq tbl,
    sharedq p = Some sq /\ rq_size sq = ssz /\
    length (rq_elems sq) = Z.to_nat pre /\
    percpu p = Some tbl /\ length tbl = possible_cpus k /\
    Forall localq_live tbl.
Proof.
  intros H. unfold qmempool_create in H.
  destruct (lsz <? QMEMPOOL_BULK); [discriminate |].
  destruct (ssz <=? QMEMPOOL_BULK * QMEMPOOL_REFILL_MULTIPLIER);
    [discriminate |].
  destruct (negb (POWEROF2 lsz) || negb (POWEROF2 ssz)); [discriminate |].
  destruct (pre >=? ssz); [discriminate |].
  destruct (km =? NULL); [discriminate |].
  unfold bind at 1 in H. unfold kzalloc at 1 in H.
  destruct (next_fault k) as [f1 r1]. destruct f1; cbn [negb] in H;
    [discriminate |].
  unfold bind at 1 in H. unfold ring_queue_create at 1 in H.
  match type of H with
  | context [next_fault ?x] => destruct (next_fault x) as [f2 r2]
  end.
  destruct f2.
  { unfold bind in H. destruct (qmempool_destroy _ _); discriminate H. }
  unfold set_sharedq, set_prealloc in H.
  cbn [kmem gfp_mask sharedq prealloc percpu] in H.
  unfold bind at 1 in H.
  match type of H with
  | context [create_prealloc ?n ?p ?x] =>
      destruct (create_prealloc n p x) as [[p' |] k2 | f k2] eqn:Hpre
  end; [| discriminate | discriminate].
  apply create_prealloc_result in Hpre.
  destruct Hpre as (es & -> & Hl & _ & _ & _ & _ & _ & Hp). cbn in Hp.
  unfold bind at 1 in H. unfold alloc_percpu at 1 in H.
  destruct (next_fault k2) as [f3 r3]. destruct f3.
  { unfold bind in H. destruct (qmempool_destroy _ _); discriminate H. }
  unfold set_percpu in H.
  cbn [kmem gfp_mask sharedq prealloc percpu] in H.
  unfold bind in H. cbn [possible_cpus] in H.
  apply create_localqs_result in H; [| rewrite take_0; constructor].
  destruct H as (tbl' & -> & Hlen & Hlive).
  rewrite length_replicate in Hlen. cbn [Nat.add] in Hlive.
  rewrite take_ge in Hlive by lia.
  exists (mk_ring ssz 0 ([] ++ es)), tbl'. cbn. repeat split; auto; lia.
Qed.

(** *** The short round in general *)

(** A first refill round in which the slab serves the elements [es], at
    least one and fewer than [BULK], and then NULL: the shared queue
    receives all of [es] but the last one. *)
Lemma slab_fill_short pool gfp sq elems es rest k :
  sharedq pool = Some sq ->
  slab k = es ++ rest ->
  hd NULL rest = NULL ->
  (1 <= length es < 16)%nat ->
  Forall nonnull es ->
  length elems = 16%nat ->
  Z.of_nat (length es) - 1 <= ring_queue_free_count sq ->
  slab_fill (Z.to_nat QMEMPOOL_BULK) 0 elems pool gfp k
  = Done (inr (set_sharedq
                 (Some (with_elems sq
                          (rq_elems sq ++ take (length es - 1) es)))
                 pool))
      (slab_step (slab_took es rest k)).
Proof.
  intros Hsq Hs Hrest Hm Hnn Hel Hroom.
  change (Z.to_nat QMEMPOOL_BULK) with 16%nat.
  replace 16%nat with (length es + S (15 - length es))%nat at 1 by lia.
  change 0 with (Z.of_nat 0).
  rewrite (slab_fill_prefix pool gfp (length es) _ 0 elems es rest k)
    by (auto; lia).
  cbn [slab_fill Nat.add]. unfold bind at 1.
  rewrite kmem_cache_alloc_step.
  assert (Hn : slab_next (slab_took es rest k) = NULL) by exact Hrest.
  rewrite Hn. change (NULL =? NULL) with true. cbv iota.
  rewrite Hsq. unfold bind at 1. unfold deref at 1.
  unfold ring_queue_mp_enqueue_bulk, enqueue_bulk, u32.
  rewrite Z.mod_small by lia.
  apply Z.leb_le in Hroom. rewrite Hroom.
  unfold bind, BUG_ON, ret. cbn [Z.ltb Z.compare].
  rewrite Nat2Z.id, take_0. cbn [app].
  replace (Z.to_nat (Z.of_nat (length es) - 1)) with (length es - 1)%nat
    by lia.
  rewrite take_insert_ge by lia.
  rewrite take_app_le by lia. reflexivity.
Qed.

(** [__qmempool_alloc_from_slab] when the slab gives out during the first
    round: the caller gets its element, and the last element obtained in
    the round, [last es], is in no queue. *)
Lemma alloc_from_slab_short km g sz fl pre pc gfp e es rest k :
  slab k = e :: es ++ rest ->
  hd NULL rest = NULL ->
  (1 <= length es < 16)%nat ->
  Forall nonnull (e :: es) ->
  16 <= sz ->
  __qmempool_alloc_from_slab
    (mk_pool km g (Some (mk_ring sz fl [])) pre pc) gfp k
  = Done (e, mk_pool km g (Some (mk_ring sz fl (take (length es - 1) es)))
               pre pc)
      (slab_step (slab_took (e :: es) rest k)).
Proof.
  intros Hs Hrest Hm Hnn Hsz. inversion Hnn as [| ? ? He Hes]; subst.
  destruct (slab_step_took e es rest k Hs He) as [Hnext Htook].
  unfold __qmempool_alloc_from_slab. unfold bind at 1.
  rewrite kmem_cache_alloc_step, Hnext.
  apply Z.eqb_neq in He. rewrite He. unfold bind at 1.
  change (Z.to_nat QMEMPOOL_REFILL_MULTIPLIER) with 2%nat.
  cbn [slab_refill]. unfold bind at 1.
  rewrite (slab_fill_short _ gfp (mk_ring sz fl []) elems_on_stack es rest
             (slab_step k)); auto.
  - unfold ret. now rewrite Htook.
  - unfold slab_step. cbn [slab]. now rewrite Hs.
  - unfold ring_queue_free_count, ring_queue_count. cbn. lia.
Qed.

(** * Further properties of the code *)

(** ** The POWEROF2 macro *)

(** X1.  [POWEROF2] on a [uint32_t] holds of zero and of the powers of two, and
    of nothing else. *)
Theorem POWEROF2_zero_or_pow2 (x : Z) :
  0 <= x < 2 ^ 32 ->
  (POWEROF2 x = true <-> x = 0 \/ is_pow2 x).
Proof.
  intros Hx. destruct (Z.eq_dec x 0) as [-> | Hnz].
  - split; [now left | reflexivity].
  - rewrite POWEROF2_is_pow2b by lia. rewrite is_pow2b_spec.
    split; [now right | intros [E | P]; [contradiction | exact P]].
Qed.

Lemma POWEROF2_zero_or_pow2_witness :
  POWEROF2 0 = true <-> 0 = 0 \/ is_pow2 0.
Proof.
  apply (POWEROF2_zero_or_pow2 0).
  vm_compute. split; [discriminate | reflexivity].
Defined.

(** ** How creation proceeds *)

Lemma next_fault_eq k :
  next_fault k = (hd false (mem_faults k), drop 1 (mem_faults k)).
Proof.
  unfold next_fault. destruct (mem_faults k); reflexivity.
Qed.

Lemma no_faults_S n k :
  no_faults (S n) k ->
  hd false (mem_faults k) = false /\
  forall h r, no_faults n (obtained 1 h r k).
Proof.
  unfold no_faults, obtained. cbn [mem_faults].
  destruct (mem_faults k) as [| b l]; cbn [take drop hd].
  - intros _. split; [reflexivity |]. intros _ _. rewrite take_nil. constructor.
  - intros H. inversion H; subst. split; [reflexivity |].
    intros _ _. rewrite drop_0. assumption.
Qed.

Lemma obtained_obtained n1 n2 h1 h2 r1 r2 k :
  obtained n2 h2 r2 (obtained n1 h1 r1 k)
  = obtained (n1 + n2) (h1 + h2) (r1 + r2) k.
Proof.
  unfold obtained. cbn. rewrite drop_drop. f_equal; lia.
Qed.

Lemma kzalloc_obtained k :
  hd false (mem_faults k) = false ->
  kzalloc k = Done true (obtained 1 1 0 k).
Proof.
  intros H. unfold kzalloc. rewrite next_fault_eq, H. unfold obtained.
  cbn [negb]. do 2 f_equal. lia.
Qed.

Lemma ring_queue_create_obtained sz fl k :
  hd false (mem_faults k) = false ->
  ring_queue_create sz fl k = Done (Some (mk_ring sz fl [])) (obtained 1 0 1 k).
Proof.
  intros H. unfold ring_queue_create. rewrite next_fault_eq, H.
  unfold obtained. do 2 f_equal. lia.
Qed.

Lemma alloc_percpu_obtained k :
  hd false (mem_faults k) = false ->
  alloc_percpu k
  = Done (Some (replicate (possible_cpus k) percpu_zero)) (obtained 1 1 0 k).
Proof.
  intros H. unfold alloc_percpu. rewrite next_fault_eq, H.
  unfold obtained. do 2 f_equal. lia.
Qed.

(** The preallocation loop while the slab delivers: the ring has room for
    the [n] elements because [prealloc < sharedq_sz]. *)
Lemma create_prealloc_all km g sz fl pre n : forall els es rest k,
  slab k = es ++ rest ->
  length es = n ->
  Forall nonnull es ->
  Z.of_nat (length els) + Z.of_nat n <= sz - 1 ->
  create_prealloc n (mk_pool km g (Some (mk_ring sz fl els)) pre None) k
  = Done (Some (mk_pool km g (Some (mk_ring sz fl (els ++ es))) pre None))
      (slab_took es rest k).
Proof.
  induction n as [| n IH]; intros els es rest k Hs Hl Hnn Hroom.
  - destruct es; [| discriminate]. cbn [create_prealloc]. unfold ret.
    rewrite app_nil_r, slab_took_nil by assumption. reflexivity.
  - destruct es as [| e es]; [discriminate |].
    inversion Hnn as [| ? ? He Hes]; subst. cbn [length] in Hl.
    destruct (slab_step_took e es rest k Hs He) as [Hnext Htook].
    cbn [create_prealloc kmem gfp_mask sharedq]. unfold bind at 1.
    rewrite kmem_cache_alloc_step, Hnext.
    apply Z.eqb_neq in He. rewrite He.
    unfold bind at 1. unfold deref at 1.
    unfold ring_queue_enqueue, enqueue_bulk, ring_queue_free_count,
      ring_queue_count. cbn [rq_size rq_elems].
    replace (1 <=? sz - 1 - Z.of_nat (length els)) with true
      by (symmetry; apply Z.leb_le; lia).
    unfold bind at 1. unfold BUG_ON at 1. cbn [Z.ltb Z.compare].
    unfold set_sharedq, with_elems.
    cbn [kmem gfp_mask prealloc percpu rq_size rq_flags rq_elems].
    change (take (Z.to_nat 1) [e]) with [e].
    rewrite (IH (els ++ [e]) es rest (slab_step k)).
    + rewrite Htook, <- app_assoc. reflexivity.
    + unfold slab_step. cbn [slab]. now rewrite Hs.
    + lia.
    + exact Hes.
    + rewrite length_app. cbn [length]. lia.
Qed.

(** The preallocation loop when the slab gives out after [es]: the
    rollback returns everything and the loop reports NULL. *)
Lemma create_prealloc_short km g sz fl pre n : forall els es rest k,
  slab k = es ++ rest ->
  hd NULL rest = NULL ->
  (length es < n)%nat ->
  Forall nonnull es ->
  Z.of_nat (length els) + Z.of_nat n <= sz - 1 ->
  create_prealloc n (mk_pool km g (Some (mk_ring sz fl els)) pre None) k
  = Done None (released (els ++ es) 1 1 (slab_step (slab_took es rest k))).
Proof.
  induction n as [| n IH]; intros els es rest k Hs Hrest Hl Hnn Hroom; [lia |].
  destruct es as [| e es].
  - cbn [create_prealloc kmem gfp_mask]. unfold bind at 1.
    rewrite kmem_cache_alloc_step.
    assert (Hn : slab_next k = NULL) by (unfold slab_next; now rewrite Hs).
    rewrite Hn. change (NULL =? NULL) with true. cbv iota.
    unfold bind. rewrite destroy_releases
      by (intros cpus Hcpus; discriminate Hcpus).
    unfold ret. rewrite slab_took_nil by assumption.
    rewrite app_nil_r. reflexivity.
  - inversion Hnn as [| ? ? He Hes]; subst. cbn [length] in Hl.
    destruct (slab_step_took e es rest k Hs He) as [Hnext Htook].
    cbn [create_prealloc kmem gfp_mask sharedq]. unfold bind at 1.
    rewrite kmem_cache_alloc_step, Hnext.
    apply Z.eqb_neq in He. rewrite He.
    unfold bind at 1. unfold deref at 1.
    unfold ring_queue_enqueue, enqueue_bulk, ring_queue_free_count,
      ring_queue_count. cbn [rq_size rq_elems].
    replace (1 <=? sz - 1 - Z.of_nat (length els)) with true
      by (symmetry; apply Z.leb_le; lia).
    unfold bind at 1. unfold BUG_ON at 1. cbn [Z.ltb Z.compare].
    unfold set_sharedq, with_elems.
    cbn [kmem gfp_mask prealloc percpu rq_size rq_flags rq_elems].
    change (take (Z.to_nat 1) [e]) with [e].
    rewrite (IH (els ++ [e]) es rest (slab_step k)).
    + rewrite Htook, <- app_assoc. reflexivity.
    + unfold slab_step. cbn [slab]. now rewrite Hs.
    + exact Hrest.
    + lia.
    + exact Hes.
    + rewrite length_app. cbn [length]. lia.
Qed.


Lemma config_ok_checks lsz ssz pre km :
  config_ok lsz ssz pre km ->
  (lsz <? QMEMPOOL_BULK) = false /\
  (ssz <=? QMEMPOOL_BULK * QMEMPOOL_REFILL_MULTIPLIER) = false /\
  negb (POWEROF2 lsz) || negb (POWEROF2 ssz) = false /\
  (pre >=? ssz) = false /\
  (km =? NULL) = false.
Proof.
  intros (Hl & Hs & Hpl & Hps & Hpre & Hkm).
  unfold QMEMPOOL_BULK, QMEMPOOL_REFILL_MULTIPLIER in *.
  rewrite !POWEROF2_is_pow2b, Hpl, Hps by lia.
  rewrite Z.geb_leb. repeat split.
  - apply Z.ltb_ge. lia.
  - apply Z.leb_gt. lia.
  - apply Z.leb_gt. lia.
  - now apply Z.eqb_neq.
Qed.

Lemma slab_took_obtained es rest n h r k :
  slab_took es rest (obtained n h r k) = obtained n h r (slab_took es rest k).
Proof. reflexivity. Qed.

Lemma no_faults_slab_took n es rest k :
  no_faults n k -> no_faults n (slab_took es rest k).
Proof. intros H. exact H. Qed.

Lemma percpu_elems_fresh lsz n :
  percpu_elems (replicate n (percpu_fresh lsz)) = [].
Proof.
  induction n as [| n IH]; [reflexivity |].
  unfold percpu_elems in *. cbn [replicate fmap list_fmap concat]. exact IH.
Qed.

Lemma percpu_fresh_live lsz n :
  Forall localq_live (replicate n (percpu_fresh lsz)).
Proof.
  apply Forall_replicate. discriminate.
Qed.



(** X3.  A pool is only ever returned for a valid configuration: local size at
    least [BULK], shared size a power of two of at least 64, [prealloc]
    below the shared size, and a slab cache. *)
Theorem create_returns_pool_only_if_valid
    (lsz ssz pre km g : Z) (k : kernel) (p : qmempool) (k' : kernel) :
  0 <= lsz < 2 ^ 32 ->
  0 <= ssz < 2 ^ 32 ->
  qmempool_create lsz ssz pre km g k = Done (Some p) k' ->
  config_ok lsz ssz pre km /\ is_pow2 lsz /\ is_pow2 ssz /\ 64 <= ssz.
Proof.
  intros Hl Hs H. unfold qmempool_create in H.
  destruct (lsz <? QMEMPOOL_BULK) eqn:E1; [discriminate |].
  destruct (ssz <=? QMEMPOOL_BULK * QMEMPOOL_REFILL_MULTIPLIER) eqn:E2;
    [discriminate |].
  destruct (negb (POWEROF2 lsz) || negb (POWEROF2 ssz)) eqn:E3;
    [discriminate |].
  destruct (pre >=? ssz) eqn:E4; [discriminate |].
  destruct (km =? NULL) eqn:E5; [discriminate |].
  clear H. apply Z.ltb_ge in E1. apply Z.leb_gt in E2.
  rewrite Z.geb_leb in E4. apply Z.leb_gt in E4. apply Z.eqb_neq in E5.
  unfold QMEMPOOL_BULK, QMEMPOOL_REFILL_MULTIPLIER in *.
  apply orb_false_iff in E3. destruct E3 as [P1 P2].
  apply negb_false_iff in P1, P2.
  rewrite POWEROF2_is_pow2b in P1, P2 by lia.
  assert (Hp2 : is_pow2 ssz) by (now apply is_pow2b_spec).
  split; [unfold config_ok, QMEMPOOL_BULK, QMEMPOOL_REFILL_MULTIPLIER;
          repeat split; auto; lia |].
  split; [now apply is_pow2b_spec |]. split; [exact Hp2 |].
  destruct Hp2 as (e & He & ->).
  assert (5 < e).
  { apply (Z.pow_lt_mono_r_iff 2); [lia | lia |]. change (2 ^ 5) with 32. lia. }
  change 64 with (2 ^ 6). apply Z.pow_le_mono_r; lia.
Qed.

Lemma create_returns_pool_only_if_valid_witness :
  config_ok 16 64 32 1 /\ is_pow2 16 /\ is_pow2 64 /\ 64 <= 64.
Proof.
  refine (create_returns_pool_only_if_valid 16 64 32 1 0
            (kernel0 slab_100 [] 2) _ _ _ _ _).
  - lia.
  - lia.
  - vm_compute. reflexivity.
Defined.

(** X7.  A valid configuration, the pool record and the shared ring obtained,
    and a slab that gives out after fewer than [prealloc] elements:
    [qmempool_create] returns NULL, having freed the elements it had
    obtained, the ring and the record. *)
Theorem create_slab_exhausted
    (lsz ssz pre km g : Z) (es rest : list ptr) (k : kernel) :
  config_ok lsz ssz pre km ->
  no_faults 2 k ->
  slab k = es ++ rest ->
  hd NULL rest = NULL ->
  (length es < Z.to_nat pre)%nat ->
  Forall nonnull es ->
  exists k',
    qmempool_create lsz ssz pre km g k = Done None k' /\
    slab_calls k' = slab_calls k + Z.of_nat (length es) + 1 /\
    slab_got k' = slab_got k ++ es /\
    slab_freed k' = slab_freed k ++ es /\
    heap_objs k' = heap_objs k /\ ring_objs k' = ring_objs k.
Proof.
  intros Hcfg Hnf Hs Hrest Hl Hnn.
  destruct (config_ok_checks _ _ _ _ Hcfg) as (E1 & E2 & E3 & E4 & E5).
  destruct Hcfg as (_ & Hssz & _ & _ & Hpre & _).
  unfold QMEMPOOL_BULK, QMEMPOOL_REFILL_MULTIPLIER in Hssz.
  destruct (no_faults_S _ k Hnf) as [H1 Hnf1].
  specialize (Hnf1 1 0).
  destruct (no_faults_S _ _ Hnf1) as [H2 _].
  eexists. split.
  - unfold qmempool_create. rewrite E1, E2, E3, E4, E5.
    unfold bind at 1. rewrite kzalloc_obtained by exact H1. cbn [negb].
    unfold bind at 1. rewrite ring_queue_create_obtained by exact H2.
    rewrite obtained_obtained.
    unfold set_sharedq, set_prealloc.
    cbn [kmem gfp_mask sharedq prealloc percpu].
    unfold bind at 1.
    rewrite (create_prealloc_short km g ssz 0 pre (Z.to_nat pre) [] es rest
               (obtained (1 + 1) (1 + 0) (0 + 1) k))
      by (auto; cbn [length]; lia).
    reflexivity.
  - assert (Hn : slab_next (slab_took es rest (obtained (1 + 1) (1 + 0) (0 + 1) k))
                 = NULL) by exact Hrest.
    unfold released, slab_step. rewrite Hn.
    cbn. repeat split; lia.
Qed.

Lemma create_slab_exhausted_witness :
  exists k',
    qmempool_create 16 64 32 1 0 (kernel0 [100; 101; 102] [] 2) = Done None k' /\
    slab_calls k' = 0 + Z.of_nat (length [100; 101; 102]) + 1 /\
    slab_got k' = [] ++ [100; 101; 102] /\
    slab_freed k' = [] ++ [100; 101; 102] /\
    heap_objs k' = 0 /\ ring_objs k' = 0.
Proof.
  apply (create_slab_exhausted 16 64 32 1 0 [100; 101; 102] []
           (kernel0 [100; 101; 102] [] 2)).
  - concrete_config.
  - constructor.
  - reflexivity.
  - reflexivity.
  - vm_compute. lia.
  - concrete_nonnull.
Defined.

(** ** How the teardown ends *)

Lemma not_all_live cpus :
  Forall localq_live cpus \/
  exists cpus1 c cpus2,
    cpus = cpus1 ++ c :: cpus2 /\ Forall localq_live cpus1 /\ localq c = None.
Proof.
  induction cpus as [| c cpus IH]; [left; constructor |].
  destruct (localq c) as [q |] eqn:Hc.
  - destruct IH as [Hall | (cpus1 & c' & cpus2 & -> & Hl & Hn)].
    + left. constructor; [unfold localq_live; congruence | exact Hall].
    + right. exists (c :: cpus1), c', cpus2. repeat split; auto.
      constructor; [unfold localq_live; congruence | exact Hl].
  - right. exists [], c, cpus. repeat split; auto.
Qed.

(** The per-CPU loop stops at the first NULL local ring; the slots before
    it are drained and their rings released, nothing after it is. *)
Lemma destroy_percpu_stops kmem cpus1 c cpus2 : forall elem k,
  Forall localq_live cpus1 ->
  localq c = None ->
  destroy_percpu kmem (cpus1 ++ c :: cpus2) elem k
  = Fatal NULL_DEREF
      (released (percpu_elems cpus1) 0 (Z.of_nat (length cpus1)) k).
Proof.
  induction cpus1 as [| c1 cpus1 IH]; intros elem k Hlive Hc.
  - cbn [app destroy_percpu]. unfold bind. rewrite Hc.
    cbn. now rewrite released_nothing.
  - inversion Hlive as [| ? ? Hc1 Hrest]; subst.
    destruct c1 as [[q |] rc fc oc]; [| now elim Hc1].
    destruct (destroy_ring_live kmem q elem k) as [e1 H1].
    cbn [app destroy_percpu localq]. unfold bind.
    rewrite H1, (IH e1 _ Hrest Hc), released_released.
    unfold percpu_elems. cbn [fmap list_fmap concat localq length].
    do 2 f_equal. lia.
Qed.

(** X11.  [qmempool_destroy] returns exactly when every slot of an existing
    per-CPU table has its local ring, and then it has released every
    element, ring and record of the pool.  Otherwise it follows the first
    NULL [localq], after releasing only the slots before it: the later
    rings, the shared ring with its elements and the pool record stay
    allocated.  No [BUG_ON] of the teardown ever fires. *)
Theorem destroy_outcome (pool : qmempool) (k : kernel) :
  ((forall cpus, percpu pool = Some cpus -> Forall localq_live cpus) /\
   qmempool_destroy pool k
   = Done tt (released (pool_elems pool) (pool_records pool)
                (pool_rings pool) k))
  \/
  (exists cpus1 c cpus2,
     percpu pool = Some (cpus1 ++ c :: cpus2) /\
     Forall localq_live cpus1 /\ localq c = None /\
     qmempool_destroy pool k
     = Fatal NULL_DEREF
         (released (percpu_elems cpus1) 0 (Z.of_nat (length cpus1)) k)).
Proof.
  destruct (percpu pool) as [cpus |] eqn:Hp.
  - destruct (not_all_live cpus) as [Hall | (cpus1 & c & cpus2 & -> & Hl & Hn)].
    + left. split.
      * intros cpus0 E. inversion E; subst. exact Hall.
      * apply destroy_releases. intros cpus0 E. rewrite Hp in E.
        inversion E; subst. exact Hall.
    + right. exists cpus1, c, cpus2. repeat split; auto.
      unfold qmempool_destroy. rewrite Hp. unfold bind.
      now rewrite (destroy_percpu_stops _ _ _ _ NULL k Hl Hn).
  - left. split; [intros cpus E; discriminate E |].
    apply destroy_releases. intros cpus E. rewrite Hp in E. discriminate E.
Qed.

Lemma destroy_fatal_null_deref pool k f k' :
  qmempool_destroy pool k = Fatal f k' -> f = NULL_DEREF.
Proof.
  intros H.
  destruct (percpu pool) as [cpus |] eqn:Hp.
  - destruct (not_all_live cpus) as [Hall | (cpus1 & c & cpus2 & -> & Hl & Hn)].
    + rewrite destroy_releases in H; [discriminate H |].
      intros cpus0 E. rewrite Hp in E. inversion E; subst. exact Hall.
    + unfold qmempool_destroy in H. rewrite Hp in H. unfold bind in H.
      rewrite (destroy_percpu_stops _ _ _ _ NULL k Hl Hn) in H.
      now inversion H.
  - rewrite destroy_releases in H; [discriminate H |].
    intros cpus E. rewrite Hp in E. discriminate E.
Qed.

(** ** Creation never trips an assertion *)

(** With room in the ring for the elements still to come, the
    preallocation loop always returns. *)
Lemma create_prealloc_total km g sz fl pre n : forall els k,
  Z.of_nat (length els) + Z.of_nat n <= sz - 1 ->
  exists r k',
    create_prealloc n (mk_pool km g (Some (mk_ring sz fl els)) pre None) k
    = Done r k'.
Proof.
  induction n as [| n IH]; intros els k Hroom.
  - eexists _, _. reflexivity.
  - cbn [create_prealloc kmem gfp_mask sharedq]. unfold bind at 1.
    rewrite kmem_cache_alloc_step.
    destruct (slab_next k =? NULL).
    + unfold bind. rewrite destroy_releases
        by (intros cpus Hcpus; discriminate Hcpus).
      eexists _, _. reflexivity.
    + unfold bind at 1. unfold deref at 1.
      unfold ring_queue_enqueue, enqueue_bulk, ring_queue_free_count,
        ring_queue_count. cbn [rq_size rq_elems].
      replace (1 <=? sz - 1 - Z.of_nat (length els)) with true
        by (symmetry; apply Z.leb_le; lia).
      unfold bind at 1. unfold BUG_ON at 1. cbn [Z.ltb Z.compare].
      unfold set_sharedq, with_elems.
      cbn [kmem gfp_mask prealloc percpu rq_size rq_flags rq_elems].
      apply IH. rewrite length_app, length_take. cbn [length]. lia.
Qed.

Lemma create_localqs_fatal lsz km g sq pre n : forall j tbl k f k',
  create_localqs n j lsz (mk_pool km g sq pre (Some tbl)) k = Fatal f k' ->
  f = NULL_DEREF.
Proof.
  induction n as [| n IH]; intros j tbl k f k' H.
  - discriminate H.
  - cbn [create_localqs percpu] in H.
    unfold bind at 1 in H. unfold deref at 1 in H.
    unfold bind at 1 in H. unfold deref at 1 in H.
    destruct (tbl !! j) as [cpu |]; [| now inversion H].
    unfold bind at 1 in H. unfold ring_queue_create at 1 in H.
    destruct (next_fault k) as [fails rest]. destruct fails.
    + unfold bind in H.
      match type of H with
      | context [qmempool_destroy ?p ?k0] =>
          destruct (qmempool_destroy p k0) as [u k1 | f1 k1] eqn:Hd
      end; [discriminate H |].
      inversion H; subst. now apply destroy_fatal_null_deref in Hd.
    + now apply IH in H.
Qed.

(** X9.  [qmempool_create] never ends in a [BUG_ON]: the enqueue of a
    preallocated element always finds room, because [prealloc] is below the
    ring size, and the rollbacks leave their rings empty.  The only way in
    which it does not return is the NULL dereference of the rollback after
    a failed local-ring creation. *)
Theorem create_fatal_only_null_deref
    (lsz ssz pre km g : Z) (k : kernel) (f : fatal) (k' : kernel) :
  qmempool_create lsz ssz pre km g k = Fatal f k' -> f = NULL_DEREF.
Proof.
  intros H. unfold qmempool_create in H.
  destruct (lsz <? QMEMPOOL_BULK); [discriminate |].
  destruct (ssz <=? QMEMPOOL_BULK * QMEMPOOL_REFILL_MULTIPLIER) eqn:E2;
    [discriminate |].
  destruct (negb (POWEROF2 lsz) || negb (POWEROF2 ssz)); [discriminate |].
  destruct (pre >=? ssz) eqn:E4; [discriminate |].
  destruct (km =? NULL); [discriminate |].
  apply Z.leb_gt in E2. rewrite Z.geb_leb in E4. apply Z.leb_gt in E4.
  unfold QMEMPOOL_BULK, QMEMPOOL_REFILL_MULTIPLIER in E2.
  unfold bind at 1 in H. unfold kzalloc at 1 in H.
  destruct (next_fault k) as [f1 r1]. destruct f1; cbn [negb] in H;
    [discriminate |].
  unfold bind at 1 in H. unfold ring_queue_create at 1 in H.
  match type of H with
  | context [next_fault ?x] => destruct (next_fault x) as [f2 r2]
  end.
  destruct f2.
  { unfold bind in H. rewrite destroy_releases in H
      by (intros cpus Hcpus; discriminate Hcpus).
    discriminate H. }
  unfold set_sharedq, set_prealloc in H.
  cbn [kmem gfp_mask sharedq prealloc percpu] in H.
  unfold bind at 1 in H.
  match type of H with
  | context [create_prealloc ?n ?p ?x] =>
      destruct (create_prealloc_total km g ssz 0 pre n [] x) as (r & k2 & Hpre);
        [cbn [length]; lia | rewrite Hpre in H]
  end.
  destruct r as [p |]; [| discriminate H].
  apply create_prealloc_result in Hpre.
  destruct Hpre as (es & -> & _).
  unfold bind at 1 in H. unfold alloc_percpu at 1 in H.
  destruct (next_fault k2) as [f3 r3]. destruct f3.
  { unfold bind in H. rewrite destroy_releases in H
      by (intros cpus Hcpus; discriminate Hcpus).
    discriminate H. }
  unfold set_percpu in H. cbn [kmem gfp_mask sharedq prealloc percpu] in H.
  unfold bind in H. now apply create_localqs_fatal in H.
Qed.

Lemma create_fatal_only_null_deref_witness : NULL_DEREF = NULL_DEREF.
Proof.
  refine (create_fatal_only_null_deref 16 64 0 1 0
            (kernel0 [] [false; false; false; true] 1) NULL_DEREF _ _).
  vm_compute. reflexivity.
Defined.

(** ** What a successful creation has done *)

Lemma slab_next_nonnull k :
  slab_next k <> NULL -> slab k = slab_next k :: tl (slab k).
Proof.
  unfold slab_next. destruct (slab k); [intros H; now elim H | reflexivity].
Qed.

Lemma create_prealloc_shape km g sz fl pre n : forall els k p k',
  create_prealloc n (mk_pool km g (Some (mk_ring sz fl els)) pre None) k
  = Done (Some p) k' ->
  exists es rest,
    slab k = es ++ rest /\ length es = n /\ Forall nonnull es /\
    p = mk_pool km g (Some (mk_ring sz fl (els ++ es))) pre None /\
    k' = slab_took es rest k.
Proof.
  induction n as [| n IH]; intros els k p k' H.
  - inversion H; subst. exists [], (slab k'). rewrite app_nil_r.
    repeat split; [constructor | now rewrite slab_took_nil].
  - cbn [create_prealloc kmem gfp_mask sharedq] in H. unfold bind at 1 in H.
    rewrite kmem_cache_alloc_step in H.
    destruct (slab_next k =? NULL) eqn:E.
    + unfold bind in H. destruct (qmempool_destroy _ _); discriminate H.
    + apply Z.eqb_neq in E.
      unfold bind at 1 in H. unfold deref at 1 in H.
      unfold ring_queue_enqueue, enqueue_bulk in H.
      destruct (1 <=? ring_queue_free_count (mk_ring sz fl els));
        [| discriminate H].
      unfold bind at 1 in H. unfold BUG_ON at 1 in H.
      cbn [Z.ltb Z.compare] in H.
      unfold set_sharedq, with_elems in H.
      cbn [kmem gfp_mask prealloc percpu rq_size rq_flags rq_elems
           Z.to_nat Pos.to_nat Pos.iter_op Nat.add take] in H.
      apply IH in H. destruct H as (es & rest & Hs & Hl & Hnn & -> & ->).
      exists (slab_next k :: es), rest.
      assert (Hsk : slab k = slab_next k :: es ++ rest).
      { rewrite (slab_next_nonnull k E) at 1. f_equal. exact Hs. }
      destruct (slab_step_took _ es rest k Hsk E) as [_ Htook].
      rewrite <- app_assoc. cbn [app length].
      repeat split; auto.
Qed.

Lemma create_localqs_shape lsz km g sq pre n : forall j tbl k p k',
  create_localqs n j lsz (mk_pool km g sq pre (Some tbl)) k = Done (Some p) k' ->
  p = mk_pool km g sq pre
        (Some (take j tbl ++ replicate n (percpu_fresh lsz)
                 ++ drop (j + n) tbl)) /\
  k' = obtained n 0 (Z.of_nat n) k.
Proof.
  induction n as [| n IH]; intros j tbl k p k' H.
  - inversion H; subst. cbn [replicate app].
    rewrite Nat.add_0_r, take_drop. split; [reflexivity |].
    destruct k'. unfold obtained. cbn. rewrite drop_0. f_equal; lia.
  - cbn [create_localqs percpu] in H.
    unfold bind at 1 in H. unfold deref at 1 in H.
    unfold bind at 1 in H. unfold deref at 1 in H.
    destruct (tbl !! j) as [cpu |] eqn:Hj; [| discriminate].
    pose proof (lookup_lt_Some _ _ _ Hj) as Hlt.
    unfold bind at 1 in H. unfold ring_queue_create at 1 in H.
    rewrite next_fault_eq in H.
    destruct (hd false (mem_faults k)) eqn:Hhd.
    + unfold bind in H. destruct (qmempool_destroy _ _); discriminate H.
    + unfold set_percpu in H. cbn [kmem gfp_mask sharedq prealloc] in H.
      apply IH in H. destruct H as [-> ->]. split.
      * rewrite (take_S_r _ _ (percpu_fresh lsz))
          by (apply list_lookup_insert_eq; lia).
        rewrite take_insert_ge by lia.
        rewrite drop_insert_lt by lia.
        rewrite <- app_assoc. cbn [replicate app].
        replace (S j + n)%nat with (j + S n)%nat by lia. reflexivity.
      * unfold obtained. cbn. rewrite drop_drop. f_equal; lia.
Qed.

Lemma create_shape lsz ssz pre km g k p k' :
  qmempool_create lsz ssz pre km g k = Done (Some p) k' ->
  exists es rest,
    slab k = es ++ rest /\ length es = Z.to_nat pre /\ Forall nonnull es /\
    p = mk_pool km g (Some (mk_ring ssz 0 es)) pre
          (Some (replicate (possible_cpus k) (percpu_fresh lsz))) /\
    k' = obtained (3 + possible_cpus k) 2 (1 + Z.of_nat (possible_cpus k))
           (slab_took es rest k).
Proof.
  intros H. unfold qmempool_create in H.
  destruct (lsz <? QMEMPOOL_BULK); [discriminate |].
  destruct (ssz <=? QMEMPOOL_BULK * QMEMPOOL_REFILL_MULTIPLIER);
    [discriminate |].
  destruct (negb (POWEROF2 lsz) || negb (POWEROF2 ssz)); [discriminate |].
  destruct (pre >=? ssz); [discriminate |].
  destruct (km =? NULL); [discriminate |].
  unfold bind at 1 in H. unfold kzalloc at 1 in H.
  rewrite next_fault_eq in H.
  destruct (hd false (mem_faults k)); cbn [negb] in H; [discriminate |].
  unfold bind at 1 in H. unfold ring_queue_create at 1 in H.
  rewrite next_fault_eq in H. cbn [mem_faults] in H.
  destruct (hd false (drop 1 (mem_faults k))).
  { unfold bind in H. destruct (qmempool_destroy _ _); discriminate H. }
  unfold set_sharedq, set_prealloc in H.
  cbn [kmem gfp_mask sharedq prealloc percpu] in H.
  unfold bind at 1 in H.
  match type of H with
  | context [create_prealloc ?n ?p ?x] =>
      destruct (create_prealloc n p x) as [[p' |] k2 | f k2] eqn:Hpre
  end; [| discriminate | discriminate].
  apply create_prealloc_shape in Hpre.
  destruct Hpre as (es & rest & Hs & Hl & Hnn & -> & ->).
  cbn [slab] in Hs.
  unfold bind at 1 in H. unfold alloc_percpu at 1 in H.
  rewrite next_fault_eq in H.
  destruct (hd false (mem_faults (slab_took _ _ _))).
  { unfold bind in H. destruct (qmempool_destroy _ _); discriminate H. }
  unfold set_percpu in H. cbn [kmem gfp_mask sharedq prealloc percpu] in H.
  unfold bind in H. cbn [possible_cpus slab_took] in H.
  apply create_localqs_shape in H. destruct H as [-> ->].
  exists es, rest. split; [exact Hs |]. split; [exact Hl |].
  split; [exact Hnn |]. split.
  - cbn [take app Nat.add].
    rewrite drop_ge by (rewrite length_replicate; lia).
    now rewrite app_nil_r.
  - unfold obtained, slab_took. cbn. rewrite !drop_drop. f_equal; lia.
Qed.

(** X4.  Whenever [qmempool_create] returns a pool, the pool is complete and
    exactly this: the shared ring of the requested size holds the
    [prealloc] elements obtained from the slab, none of them NULL, in the
    order they were obtained; every possible CPU has an empty local ring of
    the requested size with zeroed counters; and the kernel has two more
    records and one ring per CPU plus one more than before. *)
Theorem create_pool_shape
    (lsz ssz pre km g : Z) (k : kernel) (p : qmempool) (k' : kernel) :
  qmempool_create lsz ssz pre km g k = Done (Some p) k' ->
  exists es rest,
    slab k = es ++ rest /\ length es = Z.to_nat pre /\ Forall nonnull es /\
    p = mk_pool km g (Some (mk_ring ssz 0 es)) pre
          (Some (replicate (possible_cpus k) (percpu_fresh lsz))) /\
    k' = obtained (3 + possible_cpus k) 2 (1 + Z.of_nat (possible_cpus k))
           (slab_took es rest k).
Proof. apply create_shape. Qed.

Lemma create_pool_shape_witness :
  exists es rest,
    slab (kernel0 slab_100 [] 2) = es ++ rest /\
    length es = Z.to_nat 32 /\ Forall nonnull es /\
    mk_pool 1 0 (Some (mk_ring 64 0 (Z.of_nat <$> seq 100 32))) 32
      (Some (replicate 2 (percpu_fresh 16)))
    = mk_pool 1 0 (Some (mk_ring 64 0 es)) 32
        (Some (replicate (possible_cpus (kernel0 slab_100 [] 2))
                 (percpu_fresh 16))) /\
    mk_kernel (Z.of_nat <$> seq 132 8) 32 (Z.of_nat <$> seq 100 32) [] [] 2 3 2
    = obtained (3 + possible_cpus (kernel0 slab_100 [] 2)) 2
        (1 + Z.of_nat (possible_cpus (kernel0 slab_100 [] 2)))
        (slab_took es rest (kernel0 slab_100 [] 2)).
Proof.
  apply (create_pool_shape 16 64 32 1 0 (kernel0 slab_100 [] 2)).
  vm_compute. reflexivity.
Defined.

(** X5.  Creating a pool and destroying it at once leaves nothing behind: the
    teardown returns, and afterwards no record and no ring is outstanding
    and every element drawn from the slab has been given back. *)
Theorem create_then_destroy
    (lsz ssz pre km g : Z) (k : kernel) (p : qmempool) (k' : kernel) :
  qmempool_create lsz ssz pre km g k = Done (Some p) k' ->
  exists k'',
    qmempool_destroy p k' = Done tt k'' /\ rolled_back k k''.
Proof.
  intros H. apply create_shape in H.
  destruct H as (es & rest & Hs & Hl & Hnn & -> & ->).
  eexists. split.
  - apply destroy_releases. intros cpus E. cbn [percpu] in E.
    inversion E; subst. apply percpu_fresh_live.
  - apply (rolled_back_intro _ _ es);
      unfold pool_elems, pool_records, pool_rings, shared_elems;
      cbn [percpu sharedq rq_elems];
      rewrite ?percpu_elems_fresh, ?length_replicate;
      unfold released, obtained, slab_took; cbn; try reflexivity; lia.
Qed.

Lemma create_then_destroy_witness :
  exists k'',
    qmempool_destroy
      (mk_pool 1 0 (Some (mk_ring 64 0 (Z.of_nat <$> seq 100 32))) 32
         (Some (replicate 2 (percpu_fresh 16))))
      (mk_kernel (Z.of_nat <$> seq 132 8) 32 (Z.of_nat <$> seq 100 32)
         [] [] 2 3 2)
    = Done tt k'' /\ rolled_back (kernel0 slab_100 [] 2) k''.
Proof.
  apply (create_then_destroy 16 64 32 1 0 (kernel0 slab_100 [] 2)).
  vm_compute. reflexivity.
Defined.

(** ** Creation that fails *)

(** X6.  Whenever [qmempool_create] returns NULL, for whatever reason, it has
    released everything it had obtained: no record and no ring is
    outstanding, and every element drawn from the slab was given back. *)
Theorem create_null_leaves_nothing
    (lsz ssz pre km g : Z) (k k' : kernel) :
  qmempool_create lsz ssz pre km g k = Done None k' ->
  heap_objs k' = heap_objs k /\ ring_objs k' = ring_objs k /\
  exists es, slab_got k' = slab_got k ++ es /\
             slab_freed k' = slab_freed k ++ es.
Proof. apply create_error_rolled_back. Qed.

Lemma create_null_leaves_nothing_witness :
  heap_objs (mk_kernel [] 4 [100; 101; 102] [100; 101; 102] [] 0 0 2) = 0 /\
  ring_objs (mk_kernel [] 4 [100; 101; 102] [100; 101; 102] [] 0 0 2) = 0 /\
  exists es,
    slab_got (mk_kernel [] 4 [100; 101; 102] [100; 101; 102] [] 0 0 2)
    = [] ++ es /\
    slab_freed (mk_kernel [] 4 [100; 101; 102] [100; 101; 102] [] 0 0 2)
    = [] ++ es.
Proof.
  apply (create_null_leaves_nothing 16 64 32 1 0
           (kernel0 [100; 101; 102] [] 2)).
  vm_compute. reflexivity.
Defined.

(** X8.  A valid configuration in which the pool record, the shared ring or the
    per-CPU table cannot be allocated (the first failing allocation is one
    of the first three): [qmempool_create] returns NULL, and what it had
    obtained until then is released, whatever the slab does. *)
Theorem create_allocation_failure
    (lsz ssz pre km g : Z) (i : nat) (fs : list bool) (k : kernel) :
  config_ok lsz ssz pre km ->
  mem_faults k = replicate i false ++ true :: fs ->
  (i <= 2)%nat ->
  exists k',
    qmempool_create lsz ssz pre km g k = Done None k' /\ rolled_back k k'.
Proof.
  intros Hcfg Hmf Hi.
  assert (Hex : exists k', qmempool_create lsz ssz pre km g k = Done None k').
  { destruct (config_ok_checks _ _ _ _ Hcfg) as (E1 & E2 & E3 & E4 & E5).
    destruct Hcfg as (_ & Hssz & _ & _ & Hpre & _).
    unfold QMEMPOOL_BULK, QMEMPOOL_REFILL_MULTIPLIER in Hssz.
    unfold qmempool_create. rewrite E1, E2, E3, E4, E5.
    unfold bind at 1. unfold kzalloc at 1. rewrite next_fault_eq, Hmf.
    destruct i as [| i]; cbn [replicate app hd drop negb].
    { eexists. reflexivity. }
    unfold bind at 1. unfold ring_queue_create at 1.
    rewrite next_fault_eq. cbn [mem_faults]. rewrite drop_0.
    destruct i as [| i]; cbn [replicate app hd drop].
    { unfold bind. rewrite destroy_releases
        by (intros cpus Hcpus; discriminate Hcpus).
      eexists. reflexivity. }
    destruct i as [| i]; [| lia]. cbn [replicate app]. rewrite drop_0.
    unfold set_sharedq, set_prealloc.
    cbn [kmem gfp_mask sharedq prealloc percpu].
    unfold bind at 1.
    match goal with
    | |- context [create_prealloc ?n ?p ?x] =>
        destruct (create_prealloc_total km g ssz 0 pre n [] x)
          as (r & k2 & Hpre2); [cbn [length]; lia |];
        rewrite Hpre2
    end.
    destruct r as [p |]; [| eexists; reflexivity].
    apply create_prealloc_result in Hpre2.
    destruct Hpre2 as (es & -> & _ & _ & _ & _ & _ & Hm & _).
    cbn [mem_faults] in Hm.
    unfold bind at 1. unfold alloc_percpu at 1. rewrite next_fault_eq, Hm.
    cbn [hd drop].
    unfold bind. unfold set_percpu. cbn [kmem gfp_mask sharedq prealloc].
    rewrite destroy_releases by (intros cpus Hcpus; discriminate Hcpus).
    eexists. reflexivity. }
  destruct Hex as [k' Hk']. exists k'. split; [exact Hk' |].
  now apply create_error_rolled_back in Hk'.
Qed.

Lemma create_allocation_failure_witness :
  exists k',
    qmempool_create 16 64 32 1 0 (kernel0 slab_100 [false; false; true] 2)
    = Done None k' /\
    rolled_back (kernel0 slab_100 [false; false; true] 2) k'.
Proof.
  apply (create_allocation_failure 16 64 32 1 0 2 []
           (kernel0 slab_100 [false; false; true] 2)).
  - concrete_config.
  - reflexivity.
  - lia.
Defined.

(** ** The free slow path in full *)

(** One round of the shrink loop on a shared queue with a full batch: the
    batch moves into the caller's array and from there to the slab. *)
Lemma free_shrink_round km g sz fl pre pc rounds els elems k :
  (16 <= length els)%nat ->
  length elems = 16%nat ->
  free_shrink (S rounds) (mk_pool km g (Some (mk_ring sz fl els)) pre pc)
    elems k
  = free_shrink rounds (mk_pool km g (Some (mk_ring sz fl (drop 16 els))) pre pc)
      (take 16 els) (released (take 16 els) 0 0 k).
Proof.
  intros Hlen Hel.
  cbn [free_shrink sharedq kmem]. unfold bind at 1. unfold deref at 1.
  unfold ring_queue_mc_dequeue_bulk, dequeue_bulk, ring_queue_count.
  cbn [rq_elems rq_size rq_flags with_elems].
  change (u32 QMEMPOOL_BULK) with 16.
  change (Z.to_nat QMEMPOOL_BULK) with 16%nat.
  change (Z.to_nat 16) with 16%nat.
  replace (16 <=? Z.of_nat (length els)) with true
    by (symmetry; apply Z.leb_le; lia).
  unfold bind at 1. unfold BUG_ON at 1. cbn [Z.ltb Z.compare].
  unfold bind at 1.
  rewrite (drop_ge elems) by lia. rewrite app_nil_r.
  rewrite (free_bulk_released km (take 16 els) 16 0 _)
    by (rewrite length_take; lia).
  rewrite drop_0, (take_ge (take 16 els)) by (rewrite length_take; lia).
  unfold set_sharedq, with_elems.
  cbn [kmem gfp_mask prealloc percpu rq_size rq_flags]. reflexivity.
Qed.

(** One round on a shared queue without a full batch: the assertion
    fires before anything is freed. *)
Lemma free_shrink_bug km g sz fl pre pc rounds els elems k :
  (length els < 16)%nat ->
  free_shrink (S rounds) (mk_pool km g (Some (mk_ring sz fl els)) pre pc)
    elems k
  = Fatal BUG k.
Proof.
  intros Hlen.
  cbn [free_shrink sharedq kmem]. unfold bind at 1. unfold deref at 1.
  unfold ring_queue_mc_dequeue_bulk, dequeue_bulk, ring_queue_count.
  cbn [rq_elems]. change (u32 QMEMPOOL_BULK) with 16.
  replace (16 <=? Z.of_nat (length els)) with false
    by (symmetry; apply Z.leb_gt; lia).
  reflexivity.
Qed.

Lemma free_to_slab_cases km g sz fl pre pc els elems k :
  length elems = 16%nat ->
  __qmempool_free_to_slab (mk_pool km g (Some (mk_ring sz fl els)) pre pc)
    elems k
  = if (32 <=? length els)%nat then
      Done (true,
            mk_pool km g (Some (mk_ring sz fl (drop 32 els))) pre pc,
            take 16 (drop 16 els))
        (released (elems ++ take 32 els) 0 0 k)
    else if (16 <=? length els)%nat then
      Fatal BUG (released (elems ++ take 16 els) 0 0 k)
    else Fatal BUG (released elems 0 0 k).
Proof.
  intros Hel. unfold __qmempool_free_to_slab. unfold bind at 1.
  change (Z.to_nat QMEMPOOL_BULK) with 16%nat.
  change (Z.to_nat QMEMPOOL_REFILL_MULTIPLIER) with 2%nat.
  rewrite (free_bulk_released _ elems 16 0 k) by lia.
  rewrite drop_0, take_ge by lia. cbn [kmem]. unfold bind.
  destruct (Nat.leb_spec 32 (length els)) as [H32 | H32].
  - rewrite free_shrink_round by lia.
    rewrite free_shrink_round
      by (rewrite ?length_drop, ?length_take; lia).
    cbn [free_shrink]. unfold ret. cbn [fst snd].
    rewrite !released_released, drop_drop, take_take_drop.
    reflexivity.
  - destruct (Nat.leb_spec 16 (length els)) as [H16 | H16].
    + rewrite free_shrink_round by lia.
      rewrite free_shrink_bug by (rewrite length_drop; lia).
      now rewrite released_released.
    + now rewrite free_shrink_bug by lia.
Qed.

(** X20.  [__qmempool_free_to_slab] on a batch of [BULK] elements returns exactly
    when the shared queue holds at least [REFILL_MULTIPLIER * BULK]
    elements, and then it returns [true].  With fewer, the [BUG_ON] of the
    shrink loop fires, after the batch, and one round if the shared queue
    had one, have gone to the slab all the same.  In no case is anything
    obtained from the slab or added to the shared queue. *)
Theorem free_to_slab_outcome
    (pool : qmempool) (sq : ring_queue) (elems : list ptr) (k : kernel) :
  sharedq pool = Some sq ->
  Z.of_nat (length elems) = QMEMPOOL_BULK ->
  (QMEMPOOL_REFILL_MULTIPLIER * QMEMPOOL_BULK <= ring_queue_count sq ->
     __qmempool_free_to_slab pool elems k
     = Done (true,
             set_sharedq (Some (with_elems sq (drop 32 (rq_elems sq)))) pool,
             take 16 (drop 16 (rq_elems sq)))
         (released (elems ++ take 32 (rq_elems sq)) 0 0 k))
  /\ (QMEMPOOL_BULK <= ring_queue_count sq
                    < QMEMPOOL_REFILL_MULTIPLIER * QMEMPOOL_BULK ->
      __qmempool_free_to_slab pool elems k
      = Fatal BUG (released (elems ++ take 16 (rq_elems sq)) 0 0 k))
  /\ (ring_queue_count sq < QMEMPOOL_BULK ->
      __qmempool_free_to_slab pool elems k
      = Fatal BUG (released elems 0 0 k)).
Proof.
  intros Hsq Hel.
  unfold QMEMPOOL_BULK, QMEMPOOL_REFILL_MULTIPLIER, ring_queue_count in *.
  destruct pool as [km g sq0 pre pc]. cbn [sharedq] in Hsq. subst sq0.
  destruct sq as [sz fl els]. cbn [rq_elems].
  unfold set_sharedq, with_elems.
  cbn [kmem gfp_mask prealloc percpu rq_size rq_flags].
  rewrite free_to_slab_cases by lia.
  split; [| split]; intros Hc.
  - destruct (Nat.leb_spec 32 (length els)); [reflexivity | lia].
  - destruct (Nat.leb_spec 32 (length els)); [lia |].
    destruct (Nat.leb_spec 16 (length els)); [reflexivity | lia].
  - destruct (Nat.leb_spec 32 (length els)); [lia |].
    destruct (Nat.leb_spec 16 (length els)); [lia | reflexivity].
Qed.

Lemma free_to_slab_outcome_witness :
  __qmempool_free_to_slab pool_16_64 batch_100 (kernel0 [] [] 1)
  = Fatal BUG (released batch_100 0 0 (kernel0 [] [] 1)).
Proof.
  refine (proj2 (proj2 (free_to_slab_outcome pool_16_64 (mk_ring 64 0 [])
                          batch_100 (kernel0 [] [] 1) eq_refl eq_refl)) _).
  vm_compute. reflexivity.
Defined.

(** X21.  When [__qmempool_free_to_slab] returns, the caller's array no longer
    holds the caller's batch: it holds the last batch taken from the
    shared queue, and every pointer in it has been given to
    [kmem_cache_free]. *)
Theorem free_to_slab_array_after
    (pool : qmempool) (sq : ring_queue) (elems : list ptr) (k : kernel)
    (r : bool) (pool' : qmempool) (elems' : list ptr) (k' : kernel) :
  sharedq pool = Some sq ->
  Z.of_nat (length elems) = QMEMPOOL_BULK ->
  __qmempool_free_to_slab pool elems k = Done (r, pool', elems') k' ->
  r = true /\
  elems' = take 16 (drop 16 (rq_elems sq)) /\
  Z.of_nat (length elems') = QMEMPOOL_BULK /\
  forall e, e ∈ elems' -> e ∈ slab_freed k'.
Proof.
  intros Hsq Hel H.
  unfold QMEMPOOL_BULK in *.
  destruct pool as [km g sq0 pre pc]. cbn [sharedq] in Hsq. subst sq0.
  destruct sq as [sz fl els]. cbn [rq_elems].
  rewrite free_to_slab_cases in H by lia.
  destruct (Nat.leb_spec 32 (length els)) as [H32 | H32].
  - inversion H; subst. split; [reflexivity |]. split; [reflexivity |].
    split; [rewrite length_take, length_drop; lia |].
    intros e He. unfold released. cbn [slab_freed].
    rewrite !elem_of_app. right. right.
    replace (take 32 els) with (take 16 els ++ take 16 (drop 16 els))
      by apply take_take_drop.
    rewrite elem_of_app. now right.
  - destruct (16 <=? length els)%nat; discriminate H.
Qed.

Lemma free_to_slab_array_after_witness :
  true = true /\
  (Z.of_nat <$> seq 216 16) = take 16 (drop 16 (rq_elems ring_full)) /\
  Z.of_nat (length (Z.of_nat <$> seq 216 16)) = QMEMPOOL_BULK /\
  forall e, e ∈ Z.of_nat <$> seq 216 16 ->
            e ∈ slab_freed
                  (released (batch_100 ++ take 32 (rq_elems ring_full)) 0 0
                     (kernel0 [] [] 1)).
Proof.
  apply (free_to_slab_array_after pool_full ring_full batch_100
           (kernel0 [] [] 1) true
           (mk_pool 1 0 (Some (mk_ring 64 0 (Z.of_nat <$> seq 232 31))) 0 None)).
  - reflexivity.
  - reflexivity.
  - vm_compute. reflexivity.
Defined.

(** ** The refill from the shared queue in full *)

Lemma take_16_split (els : list ptr) :
  (16 <= length els)%nat ->
  els = nth 0 (take 16 els) NULL :: drop 1 (take 16 els) ++ drop 16 els.
Proof.
  intros Hlen. rewrite <- (take_drop 16 els) at 1.
  assert (Ht : length (take 16 els) = 16%nat) by (rewrite length_take; lia).
  destruct (take 16 els) as [| x t]; [discriminate Ht | reflexivity].
Qed.

(** X12.  Whenever [__qmempool_alloc_from_sharedq] returns, it has not touched
    the kernel (no slab call) nor the pool's per-CPU table, the rings kept
    their sizes, and no element was lost or duplicated: either the shared
    queue held fewer than [BULK] elements and nothing moved, or its oldest
    element is the one returned and the [BULK - 1] next ones moved, in
    order, to the end of the local queue. *)
Theorem alloc_from_sharedq_conserves
    (pool : qmempool) (sq lq : ring_queue) (gfp : Z) (k : kernel)
    (e : ptr) (pool' : qmempool) (lq' : option ring_queue) (k' : kernel) :
  sharedq pool = Some sq ->
  __qmempool_alloc_from_sharedq pool gfp (Some lq) k = Done (e, pool', lq') k' ->
  k' = k /\ percpu pool' = percpu pool /\
  exists sq' lqn,
    sharedq pool' = Some sq' /\ lq' = Some lqn /\
    rq_size sq' = rq_size sq /\ rq_size lqn = rq_size lq /\
    ((ring_queue_count sq < QMEMPOOL_BULK /\
      e = NULL /\ sq' = sq /\ lqn = lq)
     \/
     (QMEMPOOL_BULK <= ring_queue_count sq /\
      exists moved,
        Z.of_nat (length moved) = QMEMPOOL_BULK - 1 /\
        rq_elems sq = e :: moved ++ rq_elems sq' /\
        rq_elems lqn = rq_elems lq ++ moved)).
Proof.
  intros Hsq H.
  destruct (Z.le_gt_cases QMEMPOOL_BULK (ring_queue_count sq)) as [Hc | Hc].
  - destruct (Z.le_gt_cases (QMEMPOOL_BULK - 1) (ring_queue_free_count lq))
      as [Hf | Hf].
    + rewrite (sharedq_refill_hit pool sq lq gfp k Hsq Hc Hf) in H.
      inversion H; subst. split; [reflexivity |]. split; [reflexivity |].
      eexists _, _. split; [reflexivity |]. split; [reflexivity |].
      split; [reflexivity |]. split; [reflexivity |].
      right. split; [exact Hc |].
      exists (drop 1 (take 16 (rq_elems sq))).
      assert (Hlen : (16 <= length (rq_elems sq))%nat)
        by (unfold ring_queue_count, QMEMPOOL_BULK in Hc; lia).
      split; [| split].
      * rewrite length_drop, length_take. unfold QMEMPOOL_BULK. lia.
      * cbn [with_elems rq_elems]. now apply take_16_split.
      * reflexivity.
    + rewrite (sharedq_refill_bug pool sq lq gfp k Hsq Hc) in H by lia.
      discriminate H.
  - rewrite (sharedq_refill_miss pool sq gfp k Hsq (Some lq) Hc) in H.
    inversion H; subst. split; [reflexivity |]. split; [reflexivity |].
    exists sq, lq. repeat split; auto.
Qed.

Lemma alloc_from_sharedq_conserves_witness :
  kernel0 [] [] 1 = kernel0 [] [] 1 /\
  percpu (mk_pool 1 0 (Some (mk_ring 64 0 (Z.of_nat <$> seq 216 47))) 0 None)
  = percpu pool_full /\
  exists sq' lqn,
    sharedq (mk_pool 1 0 (Some (mk_ring 64 0 (Z.of_nat <$> seq 216 47)))
               0 None) = Some sq' /\
    Some (mk_ring 16 3 (Z.of_nat <$> seq 201 15)) = Some lqn /\
    rq_size sq' = rq_size ring_full /\
    rq_size lqn = rq_size (mk_ring 16 3 []) /\
    ((ring_queue_count ring_full < QMEMPOOL_BULK /\
      200 = NULL /\ sq' = ring_full /\ lqn = mk_ring 16 3 [])
     \/
     (QMEMPOOL_BULK <= ring_queue_count ring_full /\
      exists moved,
        Z.of_nat (length moved) = QMEMPOOL_BULK - 1 /\
        rq_elems ring_full = 200 :: moved ++ rq_elems sq' /\
        rq_elems lqn = rq_elems (mk_ring 16 3 []) ++ moved)).
Proof.
  apply (alloc_from_sharedq_conserves pool_full ring_full (mk_ring 16 3 []) 0
           (kernel0 [] [] 1)).
  - reflexivity.
  - vm_compute. reflexivity.
Defined.

(** X13.  As long as the shared queue holds no NULL element,
    [__qmempool_alloc_from_sharedq] returns NULL exactly when the queue
    had fewer than [BULK] elements, so a NULL result always means "refill
    from the slab"; and no NULL element enters either queue. *)
Theorem alloc_from_sharedq_null_iff
    (pool : qmempool) (sq lq : ring_queue) (gfp : Z) (k : kernel)
    (e : ptr) (pool' : qmempool) (lq' : ring_queue) (k' : kernel) :
  sharedq pool = Some sq ->
  Forall nonnull (rq_elems sq) ->
  __qmempool_alloc_from_sharedq pool gfp (Some lq) k
  = Done (e, pool', Some lq') k' ->
  (e = NULL <-> ring_queue_count sq < QMEMPOOL_BULK) /\
  Forall nonnull (shared_elems pool') /\
  (Forall nonnull (rq_elems lq) -> Forall nonnull (rq_elems lq')).
Proof.
  intros Hsq Hnn H.
  destruct (Z.le_gt_cases QMEMPOOL_BULK (ring_queue_count sq)) as [Hc | Hc].
  - destruct (Z.le_gt_cases (QMEMPOOL_BULK - 1) (ring_queue_free_count lq))
      as [Hf | Hf].
    + rewrite (sharedq_refill_hit pool sq lq gfp k Hsq Hc Hf) in H.
      inversion H; subst; clear H.
      assert (Hlen : (16 <= length (rq_elems sq))%nat)
        by (unfold ring_queue_count, QMEMPOOL_BULK in Hc; lia).
      pose proof (take_16_split (rq_elems sq) Hlen) as Hsplit.
      rewrite Hsplit in Hnn. inversion Hnn as [| ? ? Hx Hrest]; subst.
      apply Forall_app in Hrest. destruct Hrest as [Hmoved Hleft].
      split; [| split].
      * split; [intros E; now elim Hx | lia].
      * unfold shared_elems, set_sharedq. cbn [sharedq with_elems rq_elems].
        exact Hleft.
      * intros Hl. cbn [with_elems rq_elems]. apply Forall_app. now split.
    + rewrite (sharedq_refill_bug pool sq lq gfp k Hsq Hc) in H by lia.
      discriminate H.
  - rewrite (sharedq_refill_miss pool sq gfp k Hsq (Some lq) Hc) in H.
    inversion H; subst; clear H. split; [| split].
    + split; [intros _; exact Hc | reflexivity].
    + unfold shared_elems. now rewrite Hsq.
    + auto.
Qed.

Lemma alloc_from_sharedq_null_iff_witness :
  (200 = NULL <-> ring_queue_count ring_full < QMEMPOOL_BULK) /\
  Forall nonnull
    (shared_elems
       (mk_pool 1 0 (Some (mk_ring 64 0 (Z.of_nat <$> seq 216 47))) 0 None)) /\
  (Forall nonnull (rq_elems (mk_ring 16 3 [])) ->
   Forall nonnull (rq_elems (mk_ring 16 3 (Z.of_nat <$> seq 201 15)))).
Proof.
  apply (alloc_from_sharedq_null_iff pool_full ring_full (mk_ring 16 3 []) 0
           (kernel0 [] [] 1) 200 _ _ (kernel0 [] [] 1)).
  - reflexivity.
  - concrete_nonnull.
  - vm_compute. reflexivity.
Defined.

(** ** The slab path in full *)

Lemma slab_steps_fields c k :
  slab (Nat.iter c slab_step k) = drop c (slab k) /\
  slab_calls (Nat.iter c slab_step k) = slab_calls k + Z.of_nat c /\
  slab_freed (Nat.iter c slab_step k) = slab_freed k /\
  mem_faults (Nat.iter c slab_step k) = mem_faults k /\
  heap_objs (Nat.iter c slab_step k) = heap_objs k /\
  ring_objs (Nat.iter c slab_step k) = ring_objs k.
Proof.
  induction c as [| c (Hs & Hc & Hf & Hm & Hh & Hr)].
  - cbn. rewrite drop_0. repeat split. lia.
  - change (Nat.iter (S c) slab_step k)
      with (slab_step (Nat.iter c slab_step k)).
    remember (Nat.iter c slab_step k) as K.
    unfold slab_step.
    cbn [slab slab_calls slab_freed mem_faults heap_objs ring_objs].
    rewrite Hs, Hc, Hf, Hm, Hh, Hr. repeat split; [| lia].
    replace (S c) with (c + 1)%nat by lia. rewrite <- drop_drop.
    destruct (drop c (slab k)); reflexivity.
Qed.

Lemma slab_fill_effect gfp n : forall j elems pool k,
  exists c, (c <= n)%nat /\
    outcome_kernel (slab_fill n j elems pool gfp k) = Nat.iter c slab_step k.
Proof.
  induction n as [| n IH]; intros j elems pool k.
  - exists 0%nat. split; [lia | reflexivity].
  - cbn [slab_fill]. unfold bind at 1. rewrite kmem_cache_alloc_step.
    destruct (slab_next k =? NULL).
    + exists 1%nat. split; [lia |]. unfold bind, deref.
      destruct (sharedq pool) as [sq |]; [| reflexivity].
      destruct (ring_queue_mp_enqueue_bulk sq _ _) as [res sq'].
      unfold BUG_ON, ret. destruct (res <? 0); reflexivity.
    + destruct (IH (j + 1) (<[Z.to_nat j := slab_next k]> elems) pool
                  (slab_step k)) as (c & Hc & E).
      exists (S c). split; [lia |]. rewrite E. symmetry.
      apply Nat.iter_succ_r.
Qed.

Lemma slab_refill_effect gfp rounds : forall elems pool k,
  exists c, (c <= 16 * rounds)%nat /\
    outcome_kernel (slab_refill rounds elems pool gfp k)
    = Nat.iter c slab_step k.
Proof.
  induction rounds as [| rounds IH]; intros elems pool k.
  - exists 0%nat. split; [lia | reflexivity].
  - cbn [slab_refill]. unfold bind at 1.
    destruct (slab_fill_effect gfp (Z.to_nat QMEMPOOL_BULK) 0 elems pool k)
      as (c1 & Hc1 & E1).
    change (Z.to_nat QMEMPOOL_BULK) with 16%nat in *.
    destruct (slab_fill 16 0 elems pool gfp k)
      as [[elems1 | pool1] k1 | f k1]; cbn [outcome_kernel] in E1; subst k1.
    + unfold bind, deref.
      destruct (sharedq pool) as [sq |];
        [| exists c1; split; [lia | reflexivity]].
      destruct (ring_queue_mp_enqueue_bulk sq _ _) as [res sq'].
      unfold BUG_ON. destruct (res <? 0);
        [exists c1; split; [lia | reflexivity] |].
      match goal with
      | |- context [slab_refill rounds ?el ?p gfp ?k0] =>
          destruct (IH el p k0) as (c2 & Hc2 & E2)
      end.
      exists (c2 + c1)%nat. split; [lia |]. rewrite E2.
      symmetry. apply Nat.iter_add.
    + exists c1. split; [lia | reflexivity].
    + exists c1. split; [lia | reflexivity].
Qed.

(** X14.  In every execution of [__qmempool_alloc_from_slab], returning or
    fatal, the kernel is touched by slab allocations only: at least one
    and at most [1 + REFILL_MULTIPLIER * BULK] calls of [kmem_cache_alloc],
    consuming that many slab responses, and nothing is ever freed. *)
Theorem alloc_from_slab_kernel_effect (pool : qmempool) (gfp : Z) (k : kernel) :
  let k' := outcome_kernel (__qmempool_alloc_from_slab pool gfp k) in
  slab_calls k + 1 <= slab_calls k'
    <= slab_calls k + 1 + QMEMPOOL_REFILL_MULTIPLIER * QMEMPOOL_BULK /\
  slab k' = drop (Z.to_nat (slab_calls k' - slab_calls k)) (slab k) /\
  slab_freed k' = slab_freed k /\
  mem_faults k' = mem_faults k /\
  heap_objs k' = heap_objs k /\
  ring_objs k' = ring_objs k.
Proof.
  assert (H : exists c, (1 <= c <= 33)%nat /\
            outcome_kernel (__qmempool_alloc_from_slab pool gfp k)
            = Nat.iter c slab_step k).
  { unfold __qmempool_alloc_from_slab. unfold bind at 1.
    rewrite kmem_cache_alloc_step.
    destruct (slab_next k =? NULL).
    - exists 1%nat. split; [lia | reflexivity].
    - destruct (slab_refill_effect gfp (Z.to_nat QMEMPOOL_REFILL_MULTIPLIER)
                  elems_on_stack pool (slab_step k)) as (c & Hc & E).
      change (Z.to_nat QMEMPOOL_REFILL_MULTIPLIER) with 2%nat in *.
      exists (S c). split; [lia |]. unfold bind.
      destruct (slab_refill 2 elems_on_stack pool gfp (slab_step k))
        as [p1 k1 | f k1]; cbn [outcome_kernel] in *; subst k1;
        symmetry; apply Nat.iter_succ_r. }
  destruct H as (c & Hc & E). intros k'. subst k'. rewrite E.
  destruct (slab_steps_fields c k) as (Hs & Hcalls & Hf & Hm & Hh & Hr).
  unfold QMEMPOOL_BULK, QMEMPOOL_REFILL_MULTIPLIER.
  rewrite Hs, Hcalls, Hf, Hm, Hh, Hr. repeat split; try lia.
  f_equal. lia.
Qed.

Lemma slab_fill_nonnull pool gfp sq n : forall j elems k r k',
  sharedq pool = Some sq ->
  rq_size sq < 2 ^ 32 ->
  Forall nonnull (rq_elems sq) ->
  Forall nonnull (take j elems) ->
  (j + n <= length elems)%nat ->
  (length elems <= 16)%nat ->
  slab_fill n (Z.of_nat j) elems pool gfp k = Done r k' ->
  match r with
  | inl elems' =>
      Forall nonnull (take (j + n) elems') /\ length elems' = length elems
  | inr pool' =>
      exists sq', sharedq pool' = Some sq' /\ rq_size sq' = rq_size sq /\
                  Forall nonnull (rq_elems sq')
  end.
Proof.
  induction n as [| n IH]; intros j elems k r k' Hsq Hsz Hnn Hpre Hj Hlen H.
  - inversion H; subst. rewrite Nat.add_0_r. auto.
  - cbn [slab_fill] in H. unfold bind at 1 in H.
    rewrite kmem_cache_alloc_step in H. rewrite Nat2Z.id in H.
    destruct (slab_next k =? NULL) eqn:E.
    + rewrite Hsq in H. unfold bind at 1 in H. unfold deref at 1 in H.
      unfold ring_queue_mp_enqueue_bulk, enqueue_bulk in H.
      destruct j as [| j].
      * change (u32 (Z.of_nat 0 - 1)) with 4294967295 in H.
        replace (4294967295 <=? ring_queue_free_count sq) with false in H
          by (symmetry; apply Z.leb_gt;
              unfold ring_queue_free_count, ring_queue_count; lia).
        discriminate H.
      * unfold u32 in H. rewrite Z.mod_small in H by lia.
        destruct (Z.of_nat (S j) - 1 <=? ring_queue_free_count sq);
          [| discriminate H].
        unfold bind, BUG_ON, ret in H. cbn [Z.ltb Z.compare] in H.
        inversion H; subst; clear H.
        eexists. split; [reflexivity |]. split; [reflexivity |].
        cbn [with_elems rq_elems]. apply Forall_app. split; [exact Hnn |].
        replace (Z.to_nat (Z.of_nat (S j) - 1)) with j by lia.
        rewrite take_insert_ge by lia.
        apply (Forall_take _ j) in Hpre. rewrite take_take in Hpre.
        replace (j `min` S j)%nat with j in Hpre by lia. exact Hpre.
    + apply Z.eqb_neq in E.
      replace (Z.of_nat j + 1) with (Z.of_nat (S j)) in H by lia.
      apply IH in H; auto.
      * destruct r as [elems' | pool'].
        -- rewrite length_insert in H.
           replace (j + S n)%nat with (S j + n)%nat by lia. exact H.
        -- exact H.
      * rewrite (take_S_r _ _ (slab_next k))
          by (apply list_lookup_insert_eq; lia).
        rewrite take_insert_ge by lia.
        apply Forall_app. split; [exact Hpre |]. now constructor.
      * rewrite length_insert. lia.
      * rewrite length_insert. lia.
Qed.

Lemma slab_refill_nonnull gfp rounds : forall elems pool sq k pool' k',
  sharedq pool = Some sq ->
  rq_size sq < 2 ^ 32 ->
  Forall nonnull (rq_elems sq) ->
  length elems = 16%nat ->
  slab_refill rounds elems pool gfp k = Done pool' k' ->
  exists sq', sharedq pool' = Some sq' /\ rq_size sq' = rq_size sq /\
              Forall nonnull (rq_elems sq').
Proof.
  induction rounds as [| rounds IH];
    intros elems pool sq k pool' k' Hsq Hsz Hnn Hlen H.
  - inversion H; subst. exists sq. auto.
  - cbn [slab_refill] in H. unfold bind at 1 in H.
    change (Z.to_nat QMEMPOOL_BULK) with 16%nat in H.
    destruct (slab_fill 16 0 elems pool gfp k)
      as [[elems1 | pool1] k1 | f k1] eqn:Hfill; [| | discriminate H].
    + change 0 with (Z.of_nat 0) in Hfill.
      pose proof (slab_fill_nonnull pool gfp sq 16 0 elems k _ _ Hsq Hsz Hnn
                    ltac:(constructor) ltac:(lia) ltac:(lia) Hfill)
        as [Hnn1 Hlen1].
      cbn [Nat.add] in Hnn1.
      rewrite Hsq in H. unfold bind at 1 in H. unfold deref at 1 in H.
      unfold ring_queue_mp_enqueue_bulk, enqueue_bulk in H.
      destruct (u32 QMEMPOOL_BULK <=? ring_queue_free_count sq);
        [| discriminate H].
      unfold bind at 1 in H. unfold BUG_ON at 1 in H.
      cbn [Z.ltb Z.compare] in H.
      set (sq1 := with_elems sq
             (rq_elems sq ++ take (Z.to_nat (u32 QMEMPOOL_BULK)) elems1)) in H.
      assert (Hnn' : Forall nonnull (rq_elems sq1)).
      { cbn [sq1 with_elems rq_elems]. apply Forall_app.
        split; [exact Hnn | exact Hnn1]. }
      destruct (IH elems1 (set_sharedq (Some sq1) pool) sq1 k1 pool' k'
                  eq_refl Hsz Hnn' ltac:(lia) H) as (sq' & E1 & E2 & E3).
      exists sq'. auto.
    + inversion H; subst.
      change 0 with (Z.of_nat 0) in Hfill.
      exact (slab_fill_nonnull pool gfp sq 16 0 elems k _ _ Hsq Hsz Hnn
               ltac:(constructor) ltac:(lia) ltac:(lia) Hfill).
Qed.

(** X15.  [__qmempool_alloc_from_slab] never puts a NULL pointer into the shared
    queue, however the slab behaves: if the queue holds no NULL element
    before the call, it holds none after it. *)
Theorem alloc_from_slab_keeps_nonnull
    (pool : qmempool) (sq : ring_queue) (gfp : Z) (k : kernel)
    (e : ptr) (pool' : qmempool) (k' : kernel) :
  sharedq pool = Some sq ->
  rq_size sq < 2 ^ 32 ->
  Forall nonnull (rq_elems sq) ->
  __qmempool_alloc_from_slab pool gfp k = Done (e, pool') k' ->
  Forall nonnull (shared_elems pool').
Proof.
  intros Hsq Hsz Hnn H.
  unfold __qmempool_alloc_from_slab in H. unfold bind at 1 in H.
  rewrite kmem_cache_alloc_step in H.
  destruct (slab_next k =? NULL).
  - inversion H; subst. unfold shared_elems. now rewrite Hsq.
  - unfold bind in H.
    destruct (slab_refill _ _ pool gfp (slab_step k)) as [p1 k1 | f k1] eqn:Hr;
      [| discriminate H].
    inversion H; subst.
    apply (slab_refill_nonnull gfp _ _ pool sq) in Hr; auto.
    destruct Hr as (sq' & Hsq' & _ & Hnn').
    unfold shared_elems. now rewrite Hsq'.
Qed.

Lemma alloc_from_slab_keeps_nonnull_witness :
  Forall nonnull
    (shared_elems
       (mk_pool 1 0 (Some (mk_ring 64 0 [101])) 0 (percpu pool_16_64))).
Proof.
  apply (alloc_from_slab_keeps_nonnull pool_16_64 (mk_ring 64 0 []) 0
           (kernel0 [100; 101; 102] [] 1) 100 _
           (mk_kernel [] 4 [100; 101; 102] [] [] 0 0 1)).
  - reflexivity.
  - vm_compute. reflexivity.
  - constructor.
  - vm_compute. reflexivity.
Defined.

Lemma slab_took_took es1 es2 r1 r2 k :
  slab_took es2 r2 (slab_took es1 r1 k) = slab_took (es1 ++ es2) r2 k.
Proof.
  unfold slab_took. cbn. rewrite length_app, <- app_assoc. f_equal. lia.
Qed.

(** A refill round that the slab serves in full and the shared queue has
    room for. *)
Lemma slab_refill_round km g sz fl pre pc gfp rounds elems els es1 rest k :
  slab k = es1 ++ rest ->
  length es1 = 16%nat ->
  length elems = 16%nat ->
  Forall nonnull es1 ->
  Z.of_nat (length els) + 16 <= sz - 1 ->
  slab_refill (S rounds) elems
    (mk_pool km g (Some (mk_ring sz fl els)) pre pc) gfp k
  = slab_refill rounds es1
      (mk_pool km g (Some (mk_ring sz fl (els ++ es1))) pre pc) gfp
      (slab_took es1 rest k).
Proof.
  intros Hs Hl Hel Hnn Hroom.
  cbn [slab_refill]. unfold bind at 1.
  rewrite (slab_fill_all _ gfp elems es1 rest k) by auto.
  cbn [sharedq]. unfold bind at 1. unfold deref at 1.
  unfold ring_queue_mp_enqueue_bulk, enqueue_bulk, ring_queue_free_count,
    ring_queue_count.
  cbn [rq_size rq_elems rq_flags with_elems].
  change (u32 QMEMPOOL_BULK) with 16.
  replace (16 <=? sz - 1 - Z.of_nat (length els)) with true
    by (symmetry; apply Z.leb_le; lia).
  unfold bind at 1. unfold BUG_ON at 1. cbn [Z.ltb Z.compare].
  unfold set_sharedq, with_elems.
  cbn [kmem gfp_mask prealloc percpu rq_size rq_flags rq_elems].
  change (Z.to_nat 16) with 16%nat. rewrite take_ge by lia. reflexivity.
Qed.

(** A refill round that the slab serves in full but the shared queue has
    no room for: the assertion fires with the round's elements in hand. *)
Lemma slab_refill_no_room km g sz fl pre pc gfp rounds elems els es1 rest k :
  slab k = es1 ++ rest ->
  length es1 = 16%nat ->
  length elems = 16%nat ->
  Forall nonnull es1 ->
  sz - 1 < Z.of_nat (length els) + 16 ->
  slab_refill (S rounds) elems
    (mk_pool km g (Some (mk_ring sz fl els)) pre pc) gfp k
  = Fatal BUG (slab_took es1 rest k).
Proof.
  intros Hs Hl Hel Hnn Hroom.
  cbn [slab_refill]. unfold bind at 1.
  rewrite (slab_fill_all _ gfp elems es1 rest k) by auto.
  cbn [sharedq]. unfold bind at 1. unfold deref at 1.
  unfold ring_queue_mp_enqueue_bulk, enqueue_bulk, ring_queue_free_count,
    ring_queue_count.
  cbn [rq_size rq_elems]. change (u32 QMEMPOOL_BULK) with 16.
  replace (16 <=? sz - 1 - Z.of_nat (length els)) with false
    by (symmetry; apply Z.leb_gt; lia).
  reflexivity.
Qed.

(** A round in which the slab fails on the very first element: the count
    [j - 1] is [-1], that is 4294967295 as an [unsigned]; no ring has that
    much room, so the assertion fires. *)
Lemma slab_refill_null_first pool sq gfp rounds elems k :
  sharedq pool = Some sq ->
  rq_size sq < 2 ^ 32 ->
  slab_next k = NULL ->
  slab_refill (S rounds) elems pool gfp k = Fatal BUG (slab_step k).
Proof.
  intros Hsq Hsz Hn.
  cbn [slab_refill]. unfold bind at 1.
  change (Z.to_nat QMEMPOOL_BULK) with 16%nat. cbn [slab_fill].
  unfold bind at 1. rewrite kmem_cache_alloc_step, Hn.
  change (NULL =? NULL) with true. cbv iota.
  rewrite Hsq. unfold bind at 1. unfold deref at 1.
  unfold ring_queue_mp_enqueue_bulk, enqueue_bulk.
  change (u32 (0 - 1)) with 4294967295.
  replace (4294967295 <=? ring_queue_free_count sq) with false
    by (symmetry; apply Z.leb_gt;
        unfold ring_queue_free_count, ring_queue_count; lia).
  reflexivity.
Qed.

(** X16.  When the slab serves the caller's element and then gives out exactly
    at the start of a refill round (after 0 or [BULK] further elements),
    [__qmempool_alloc_from_slab] does not return the element it obtained:
    the enqueue of [j - 1 = -1] elements is refused and the [BUG_ON]
    fires. *)
Theorem alloc_from_slab_round_boundary
    (pool : qmempool) (sq : ring_queue) (gfp : Z)
    (e : ptr) (es rest : list ptr) (k : kernel) :
  sharedq pool = Some sq ->
  rq_size sq < 2 ^ 32 ->
  slab k = e :: es ++ rest ->
  hd NULL rest = NULL ->
  Forall nonnull (e :: es) ->
  length es = 0%nat \/
  (Z.of_nat (length es) = QMEMPOOL_BULK /\
   QMEMPOOL_BULK <= ring_queue_free_count sq) ->
  __qmempool_alloc_from_slab pool gfp k
  = Fatal BUG (slab_step (slab_took (e :: es) rest k)).
Proof.
  intros Hsq Hsz Hs Hrest Hnn Hm.
  inversion Hnn as [| ? ? He Hes]; subst.
  destruct (slab_step_took e es rest k Hs He) as [Hnext Htook].
  assert (Hs1 : slab (slab_step k) = es ++ rest)
    by (unfold slab_step; cbn [slab]; now rewrite Hs).
  unfold __qmempool_alloc_from_slab. unfold bind at 1.
  rewrite kmem_cache_alloc_step, Hnext.
  apply Z.eqb_neq in He. rewrite He. unfold bind.
  change (Z.to_nat QMEMPOOL_REFILL_MULTIPLIER) with 2%nat.
  destruct Hm as [Hm | [Hm Hroom]].
  - destruct es; [| discriminate]. cbn [app] in *.
    rewrite (slab_refill_null_first pool sq) by
      (auto; unfold slab_next; now rewrite Hs1).
    rewrite <- Htook, slab_took_nil by assumption. reflexivity.
  - unfold QMEMPOOL_BULK, ring_queue_free_count, ring_queue_count in *.
    destruct pool as [km g sq0 pre pc]. cbn [sharedq] in Hsq. subst sq0.
    destruct sq as [sz fl els]. cbn [rq_size rq_elems] in *.
    rewrite (slab_refill_round km g sz fl pre pc gfp 1 elems_on_stack els
               es rest (slab_step k)) by (auto; lia).
    rewrite (slab_refill_null_first _ (mk_ring sz fl (els ++ es)))
      by (auto; exact Hrest).
    now rewrite Htook.
Qed.

Lemma alloc_from_slab_round_boundary_witness :
  __qmempool_alloc_from_slab pool_16_64 0
    (kernel0 (Z.of_nat <$> seq 100 17) [] 1)
  = Fatal BUG
      (slab_step (slab_took (100 :: (Z.of_nat <$> seq 101 16)) []
                    (kernel0 (Z.of_nat <$> seq 100 17) [] 1))).
Proof.
  apply (alloc_from_slab_round_boundary pool_16_64 (mk_ring 64 0 []) 0 100
           (Z.of_nat <$> seq 101 16) [] (kernel0 (Z.of_nat <$> seq 100 17) [] 1)).
  - reflexivity.
  - vm_compute. reflexivity.
  - reflexivity.
  - reflexivity.
  - concrete_nonnull.
  - right. split; [reflexivity | vm_compute; discriminate].
Defined.

(** X17.  When the slab gives out in the middle of a refill round, after serving
    the caller's element and [es], [__qmempool_alloc_from_slab] returns the
    caller's element, and the shared queue receives the elements of [es]
    except the last: that element was obtained from the slab and is neither
    queued, nor returned, nor freed. *)
Theorem alloc_from_slab_loses_last
    (pool : qmempool) (sq : ring_queue) (gfp : Z)
    (e : ptr) (es rest : list ptr) (k : kernel) :
  sharedq pool = Some sq ->
  slab k = e :: es ++ rest ->
  hd NULL rest = NULL ->
  Forall nonnull (e :: es) ->
  (1 <= length es < 32)%nat ->
  length es <> 16%nat ->
  Z.of_nat (length es) - 1 <= ring_queue_free_count sq ->
  __qmempool_alloc_from_slab pool gfp k
  = Done (e,
          set_sharedq
            (Some (with_elems sq (rq_elems sq ++ take (length es - 1) es)))
            pool)
      (slab_step (slab_took (e :: es) rest k)).
Proof.
  intros Hsq Hs Hrest Hnn Hm Hm16 Hroom.
  inversion Hnn as [| ? ? He Hes]; subst.
  destruct (slab_step_took e es rest k Hs He) as [Hnext Htook].
  assert (Hs1 : slab (slab_step k) = es ++ rest)
    by (unfold slab_step; cbn [slab]; now rewrite Hs).
  unfold __qmempool_alloc_from_slab. unfold bind at 1.
  rewrite kmem_cache_alloc_step, Hnext.
  apply Z.eqb_neq in He. rewrite He. unfold bind at 1.
  change (Z.to_nat QMEMPOOL_REFILL_MULTIPLIER) with 2%nat.
  destruct (Nat.lt_ge_cases (length es) 16) as [Hlt | Hge].
  - cbn [slab_refill]. unfold bind at 1.
    rewrite (slab_fill_short pool gfp sq elems_on_stack es rest (slab_step k))
      by (auto; lia).
    unfold ret. now rewrite Htook.
  - unfold ring_queue_free_count, ring_queue_count in Hroom.
    destruct pool as [km g sq0 pre pc]. cbn [sharedq] in Hsq. subst sq0.
    destruct sq as [sz fl els]. cbn [rq_size rq_elems] in *.
    set (es1 := take 16 es). set (es2 := drop 16 es).
    assert (Hsplit : es = es1 ++ es2) by (symmetry; apply take_drop).
    assert (Hl1 : length es1 = 16%nat)
      by (unfold es1; rewrite length_take; lia).
    assert (Hl2 : length es2 = (length es - 16)%nat)
      by (unfold es2; apply length_drop).
    assert (Hnn1 : Forall nonnull es1) by (now apply Forall_take).
    assert (Hnn2 : Forall nonnull es2) by (now apply Forall_drop).
    rewrite (slab_refill_round km g sz fl pre pc gfp 1 elems_on_stack els
               es1 (es2 ++ rest) (slab_step k));
      [| rewrite Hs1, Hsplit, <- app_assoc; reflexivity
       | assumption | reflexivity | assumption | lia].
    cbn [slab_refill]. unfold bind at 1.
    rewrite (slab_fill_short _ gfp (mk_ring sz fl (els ++ es1)) es1 es2 rest
               (slab_took es1 (es2 ++ rest) (slab_step k)));
      [| reflexivity | reflexivity | assumption | lia | assumption
       | assumption
       | unfold ring_queue_free_count, ring_queue_count;
         cbn [rq_size rq_elems]; rewrite length_app; lia].
    unfold ret, set_sharedq, with_elems.
    cbn [kmem gfp_mask prealloc percpu rq_size rq_flags rq_elems].
    rewrite slab_took_took, <- Hsplit, Htook, <- app_assoc.
    replace (take (length es - 1) es)
      with (es1 ++ take (length es2 - 1) es2); [reflexivity |].
    unfold es1, es2. rewrite take_take_drop. f_equal.
    rewrite length_drop. lia.
Qed.

Lemma alloc_from_slab_loses_last_witness :
  __qmempool_alloc_from_slab pool_16_64 0
    (kernel0 (Z.of_nat <$> seq 100 20) [] 1)
  = Done (100,
          set_sharedq
            (Some (with_elems (mk_ring 64 0 [])
                     (rq_elems (mk_ring 64 0 [])
                      ++ take (length (Z.of_nat <$> seq 101 19) - 1)
                           (Z.of_nat <$> seq 101 19))))
            pool_16_64)
      (slab_step (slab_took (100 :: (Z.of_nat <$> seq 101 19)) []
                    (kernel0 (Z.of_nat <$> seq 100 20) [] 1))).
Proof.
  apply (alloc_from_slab_loses_last pool_16_64 (mk_ring 64 0 []) 0 100
           (Z.of_nat <$> seq 101 19) []
           (kernel0 (Z.of_nat <$> seq 100 20) [] 1)).
  - reflexivity.
  - reflexivity.
  - reflexivity.
  - concrete_nonnull.
  - vm_compute. lia.
  - vm_compute. discriminate.
  - vm_compute. discriminate.
Defined.

(** X18.  With a slab that serves all [1 + REFILL_MULTIPLIER * BULK] elements,
    [__qmempool_alloc_from_slab] returns exactly when the shared queue has
    room for [REFILL_MULTIPLIER * BULK] more elements, which it appends in
    the order obtained.  With less room the [BUG_ON] after the bulk
    enqueue fires: after the second round if there was room for one
    batch, after the first round otherwise.  (A queue of at least 64 slots
    that has just failed a dequeue of [BULK] has 48 free slots or more.) *)
Theorem alloc_from_slab_room
    (pool : qmempool) (sq : ring_queue) (gfp : Z)
    (e : ptr) (es rest : list ptr) (k : kernel) :
  sharedq pool = Some sq ->
  slab k = e :: es ++ rest ->
  Z.of_nat (length es) = QMEMPOOL_REFILL_MULTIPLIER * QMEMPOOL_BULK ->
  Forall nonnull (e :: es) ->
  (QMEMPOOL_REFILL_MULTIPLIER * QMEMPOOL_BULK <= ring_queue_free_count sq ->
     __qmempool_alloc_from_slab pool gfp k
     = Done (e, set_sharedq (Some (with_elems sq (rq_elems sq ++ es))) pool)
         (slab_took (e :: es) rest k))
  /\ (QMEMPOOL_BULK <= ring_queue_free_count sq
                    < QMEMPOOL_REFILL_MULTIPLIER * QMEMPOOL_BULK ->
      __qmempool_alloc_from_slab pool gfp k
      = Fatal BUG (slab_took (e :: es) rest k))
  /\ (ring_queue_free_count sq < QMEMPOOL_BULK ->
      __qmempool_alloc_from_slab pool gfp k
      = Fatal BUG (slab_took (e :: take 16 es) (drop 16 es ++ rest) k)).
Proof.
  intros Hsq Hs Hl Hnn.
  unfold QMEMPOOL_BULK, QMEMPOOL_REFILL_MULTIPLIER, ring_queue_free_count,
    ring_queue_count in *.
  inversion Hnn as [| ? ? He Hes]; subst.
  destruct (slab_step_took e es rest k Hs He) as [Hnext Htook].
  assert (Hs1 : slab (slab_step k) = es ++ rest)
    by (unfold slab_step; cbn [slab]; now rewrite Hs).
  destruct pool as [km g sq0 pre pc]. cbn [sharedq] in Hsq. subst sq0.
  destruct sq as [sz fl els]. cbn [rq_size rq_elems] in *.
  unfold set_sharedq, with_elems.
  cbn [kmem gfp_mask prealloc percpu rq_size rq_flags].
  set (es1 := take 16 es). set (es2 := drop 16 es).
  assert (Hsplit : es = es1 ++ es2) by (symmetry; apply take_drop).
  assert (Hl1 : length es1 = 16%nat)
    by (unfold es1; rewrite length_take; lia).
  assert (Hl2 : length es2 = 16%nat)
    by (unfold es2; rewrite length_drop; lia).
  assert (Hnn1 : Forall nonnull es1) by (now apply Forall_take).
  assert (Hnn2 : Forall nonnull es2) by (now apply Forall_drop).
  assert (Hs2 : slab (slab_step k) = es1 ++ es2 ++ rest)
    by (rewrite Hs1, Hsplit at 1; now rewrite <- app_assoc).
  assert (Hstart : forall o,
            slab_refill 2 elems_on_stack
              (mk_pool km g (Some (mk_ring sz fl els)) pre pc) gfp
              (slab_step k) = o ->
            __qmempool_alloc_from_slab
              (mk_pool km g (Some (mk_ring sz fl els)) pre pc) gfp k
            = match o with
              | Done p k1 => Done (e, p) k1
              | Fatal f k1 => Fatal f k1
              end).
  { intros o Ho. unfold __qmempool_alloc_from_slab. unfold bind at 1.
    rewrite kmem_cache_alloc_step, Hnext.
    apply Z.eqb_neq in He. rewrite He. unfold bind.
    change (Z.to_nat QMEMPOOL_REFILL_MULTIPLIER) with 2%nat.
    rewrite Ho. destruct o; reflexivity. }
  split; [| split]; intros Hroom.
  - rewrite (Hstart _ (slab_refill_all km g sz fl pre pc gfp 2 elems_on_stack
                         els es rest (slab_step k) Hs1 ltac:(lia) eq_refl
                         Hes ltac:(lia))).
    now rewrite Htook.
  - erewrite Hstart.
    2:{ rewrite (slab_refill_round km g sz fl pre pc gfp 1 elems_on_stack els
                   es1 (es2 ++ rest) (slab_step k)) by (auto; lia).
        apply (slab_refill_no_room km g sz fl pre pc gfp 0 es1 (els ++ es1)
                 es2 rest); auto; rewrite ?length_app; lia. }
    cbv iota. rewrite slab_took_took, <- Hsplit, Htook. reflexivity.
  - erewrite Hstart.
    2:{ apply (slab_refill_no_room km g sz fl pre pc gfp 1 elems_on_stack els
                 es1 (es2 ++ rest)); auto; lia. }
    cbv iota. f_equal.
    assert (Hs3 : slab k = e :: es1 ++ es2 ++ rest)
      by (rewrite Hs, Hsplit at 1; now rewrite <- app_assoc).
    now destruct (slab_step_took e es1 (es2 ++ rest) k Hs3 He).
Qed.

Lemma alloc_from_slab_room_witness :
  __qmempool_alloc_from_slab pool_full 0 (kernel0 slab_100 [] 1)
  = Fatal BUG
      (slab_took (100 :: take 16 (Z.of_nat <$> seq 101 32))
         (drop 16 (Z.of_nat <$> seq 101 32) ++ (Z.of_nat <$> seq 133 7))
         (kernel0 slab_100 [] 1)).
Proof.
  refine (proj2 (proj2 (alloc_from_slab_room pool_full ring_full 0 100
                          (Z.of_nat <$> seq 101 32) (Z.of_nat <$> seq 133 7)
                          (kernel0 slab_100 [] 1) eq_refl eq_refl eq_refl _))
            _).
  - concrete_nonnull.
  - vm_compute. reflexivity.
Defined.

(** X19.  The local cache is filled one allocation late: from an empty pool the
    slab path returns the first element and leaves the local queue empty,
    and the shared-queue path run next on the same CPU returns the oldest
    refilled element, leaves [BULK - 1] elements in the local queue and
    [(REFILL_MULTIPLIER - 1) * BULK] in the shared queue, without a further
    slab call. *)
Theorem slab_refill_then_sharedq
    (pool : qmempool) (sq lq : ring_queue) (gfp : Z)
    (e : ptr) (es rest : list ptr) (k : kernel) :
  sharedq pool = Some sq -> rq_elems sq = [] ->
  QMEMPOOL_BULK * QMEMPOOL_REFILL_MULTIPLIER < rq_size sq ->
  rq_elems lq = [] -> QMEMPOOL_BULK <= rq_size lq ->
  slab k = e :: es ++ rest ->
  Z.of_nat (length es) = QMEMPOOL_REFILL_MULTIPLIER * QMEMPOOL_BULK ->
  Forall nonnull (e :: es) ->
  exists pool1 k1 pool2 lq2,
    __qmempool_alloc_from_slab pool gfp k = Done (e, pool1) k1 /\
    percpu pool1 = percpu pool /\
    __qmempool_alloc_from_sharedq pool1 gfp (Some lq) k1
    = Done (nth 0 es NULL, pool2, Some lq2) k1 /\
    shared_elems pool2 = drop 16 es /\
    rq_elems lq2 = take 15 (drop 1 es) /\
    shared_count pool2 = (QMEMPOOL_REFILL_MULTIPLIER - 1) * QMEMPOOL_BULK /\
    ring_queue_count lq2 = QMEMPOOL_BULK - 1.
Proof.
  intros Hsq Hsqe Hsz Hlqe Hlsz Hs Hl Hnn.
  unfold QMEMPOOL_BULK, QMEMPOOL_REFILL_MULTIPLIER in *.
  destruct pool as [km g sq0 pre pc]. cbn [sharedq] in Hsq. subst sq0.
  destruct sq as [sz fl els]. cbn [rq_elems rq_size] in *. subst els.
  set (pool1 := mk_pool km g (Some (mk_ring sz fl es)) pre pc).
  assert (Hc : QMEMPOOL_BULK <= ring_queue_count (mk_ring sz fl es))
    by (unfold ring_queue_count, QMEMPOOL_BULK; cbn [rq_elems]; lia).
  assert (Hf : QMEMPOOL_BULK - 1 <= ring_queue_free_count lq).
  { unfold ring_queue_free_count, ring_queue_count, QMEMPOOL_BULK.
    rewrite Hlqe. cbn [length]. lia. }
  eexists pool1, _, _, _. split; [| split; [reflexivity |]; split].
  - apply (alloc_from_slab_all km g sz fl pre pc gfp e es rest k Hs
             ltac:(lia) Hnn ltac:(lia)).
  - rewrite (sharedq_refill_hit pool1 (mk_ring sz fl es) lq gfp _ eq_refl
               Hc Hf).
    cbn [rq_elems]. rewrite Hlqe.
    destruct es as [| x es']; [cbn in Hl; lia |]. reflexivity.
  - unfold shared_elems, shared_count, ring_queue_count, set_sharedq.
    cbn [sharedq with_elems rq_elems app].
    split; [reflexivity |]. split.
    + rewrite take_drop_commute. reflexivity.
    + rewrite !length_drop, length_take. lia.
Qed.

Lemma slab_refill_then_sharedq_witness :
  exists pool1 k1 pool2 lq2,
    __qmempool_alloc_from_slab pool_16_64 0 (kernel0 slab_100 [] 1)
    = Done (100, pool1) k1 /\
    percpu pool1 = percpu pool_16_64 /\
    __qmempool_alloc_from_sharedq pool1 0 (Some (mk_ring 16 3 [])) k1
    = Done (nth 0 (Z.of_nat <$> seq 101 32) NULL, pool2, Some lq2) k1 /\
    shared_elems pool2 = drop 16 (Z.of_nat <$> seq 101 32) /\
    rq_elems lq2 = take 15 (drop 1 (Z.of_nat <$> seq 101 32)) /\
    shared_count pool2 = (QMEMPOOL_REFILL_MULTIPLIER - 1) * QMEMPOOL_BULK /\
    ring_queue_count lq2 = QMEMPOOL_BULK - 1.
Proof.
  apply (slab_refill_then_sharedq pool_16_64 (mk_ring 64 0 [])
           (mk_ring 16 3 []) 0 100 (Z.of_nat <$> seq 101 32)
           (Z.of_nat <$> seq 133 7) (kernel0 slab_100 [] 1)).
  - reflexivity.
  - reflexivity.
  - reflexivity.
  - reflexivity.
  - vm_compute. discriminate.
  - reflexivity.
  - reflexivity.
  - concrete_nonnull.
Defined.

(** ** A local ring that cannot be created *)

Lemma destroy_stops km g sq pre cpus1 c cpus2 k :
  Forall localq_live cpus1 ->
  localq c = None ->
  qmempool_destroy (mk_pool km g sq pre (Some (cpus1 ++ c :: cpus2))) k
  = Fatal NULL_DEREF
      (released (percpu_elems cpus1) 0 (Z.of_nat (length cpus1)) k).
Proof.
  intros Hlive Hc. unfold qmempool_destroy. cbn [percpu kmem].
  unfold bind. now rewrite (destroy_percpu_stops _ _ _ _ NULL k Hlive Hc).
Qed.

Lemma percpu_elems_app l1 l2 :
  percpu_elems (l1 ++ l2) = percpu_elems l1 ++ percpu_elems l2.
Proof.
  unfold percpu_elems. now rewrite fmap_app, concat_app.
Qed.

(** The local-ring loop when the creation of the ring of the [m]-th CPU
    from [j] on fails: the rollback releases the rings of the slots before
    it and then follows the NULL [localq] of that slot. *)
Lemma create_localqs_stops lsz km g sq pre fs m : forall n j tbl k,
  mem_faults k = replicate m false ++ true :: fs ->
  (m < n)%nat ->
  (j + n <= length tbl)%nat ->
  Forall localq_live (take j tbl) ->
  create_localqs n j lsz (mk_pool km g sq pre (Some tbl)) k
  = Fatal NULL_DEREF
      (released (percpu_elems (take j tbl)) 0 (Z.of_nat (j + m))
         (obtained (S m) 0 (Z.of_nat m) k)).
Proof.
  induction m as [| m IH]; intros n j tbl k Hmf Hn Hlen Hlive.
  - destruct n as [| n]; [lia |].
    destruct (lookup_lt_is_Some_2 tbl j ltac:(lia)) as [cpu Hj].
    cbn [create_localqs percpu].
    unfold bind at 1. unfold deref at 1.
    unfold bind at 1. rewrite Hj. unfold deref at 1.
    unfold bind at 1. unfold ring_queue_create at 1.
    rewrite next_fault_eq, Hmf. cbn [replicate app hd drop].
    unfold set_percpu. cbn [kmem gfp_mask sharedq prealloc].
    unfold bind. rewrite insert_take_drop by lia.
    rewrite destroy_stops by auto.
    rewrite length_take, Nat.add_0_r.
    replace (j `min` length tbl)%nat with j by lia.
    f_equal. unfold released, obtained. rewrite Hmf. cbn. f_equal; lia.
  - destruct n as [| n]; [lia |].
    destruct (lookup_lt_is_Some_2 tbl j ltac:(lia)) as [cpu Hj].
    cbn [create_localqs percpu].
    unfold bind at 1. unfold deref at 1.
    unfold bind at 1. rewrite Hj. unfold deref at 1.
    unfold bind at 1. rewrite ring_queue_create_obtained
      by (rewrite Hmf; reflexivity).
    unfold set_percpu. cbn [kmem gfp_mask sharedq prealloc].
    rewrite (IH n (S j) _ (obtained 1 0 1 k)).
    + rewrite (take_S_r _ _ (percpu_fresh lsz))
        by (apply list_lookup_insert_eq; lia).
      rewrite take_insert_ge by lia.
      rewrite percpu_elems_app, obtained_obtained.
      change (percpu_elems [percpu_fresh lsz]) with (@nil Z).
      rewrite app_nil_r. do 2 f_equal; [lia |].
      unfold obtained. f_equal; lia.
    + unfold obtained. cbn [mem_faults]. rewrite Hmf. reflexivity.
    + lia.
    + rewrite length_insert. lia.
    + rewrite (take_S_r _ _ (percpu_fresh lsz))
        by (apply list_lookup_insert_eq; lia).
      rewrite take_insert_ge by lia.
      apply Forall_app. split; [exact Hlive |].
      constructor; [discriminate | constructor].
Qed.

(** X10.  On any machine, with a valid configuration and a slab that serves the
    preallocation: if the pool record, the shared ring and the per-CPU
    table are obtained and the creation of some CPU's local ring fails,
    [qmempool_create] does not return.  Its rollback releases the local
    rings created so far and then follows the NULL [localq]; the
    preallocated elements, the pool record, the per-CPU table and the
    shared ring stay allocated. *)
Theorem create_local_ring_failure
    (lsz ssz pre km g : Z) (es rest : list ptr) (m : nat) (fs : list bool)
    (k : kernel) :
  config_ok lsz ssz pre km ->
  slab k = es ++ rest ->
  length es = Z.to_nat pre ->
  Forall nonnull es ->
  mem_faults k = replicate (3 + m) false ++ true :: fs ->
  (m < possible_cpus k)%nat ->
  exists k',
    qmempool_create lsz ssz pre km g k = Fatal NULL_DEREF k' /\
    slab_got k' = slab_got k ++ es /\
    slab_freed k' = slab_freed k /\
    heap_objs k' = heap_objs k + 2 /\
    ring_objs k' = ring_objs k + 1.
Proof.
  intros Hcfg Hs Hl Hnn Hmf Hm.
  destruct (config_ok_checks _ _ _ _ Hcfg) as (E1 & E2 & E3 & E4 & E5).
  destruct Hcfg as (_ & Hssz & _ & _ & Hpre & _).
  unfold QMEMPOOL_BULK, QMEMPOOL_REFILL_MULTIPLIER in Hssz.
  eexists. split.
  - unfold qmempool_create. rewrite E1, E2, E3, E4, E5.
    unfold bind at 1. rewrite kzalloc_obtained
      by (rewrite Hmf; reflexivity). cbn [negb].
    unfold bind at 1. rewrite ring_queue_create_obtained
      by (cbn [obtained mem_faults]; rewrite Hmf; reflexivity).
    rewrite obtained_obtained.
    unfold set_sharedq, set_prealloc.
    cbn [kmem gfp_mask sharedq prealloc percpu].
    unfold bind at 1.
    rewrite (create_prealloc_all km g ssz 0 pre (Z.to_nat pre) [] es rest
               (obtained (1 + 1) (1 + 0) (0 + 1) k))
      by (auto; cbn [length]; lia).
    cbn [app].
    unfold bind at 1. rewrite alloc_percpu_obtained
      by (cbn [slab_took obtained mem_faults]; rewrite Hmf; reflexivity).
    unfold set_percpu. cbn [kmem gfp_mask sharedq prealloc percpu].
    unfold bind. cbn [possible_cpus obtained slab_took].
    match goal with
    | |- create_localqs ?n 0 lsz ?p ?k0 = _ =>
        rewrite (create_localqs_stops lsz km g (Some (mk_ring ssz 0 es)) pre
                   fs m n 0 (replicate n percpu_zero) k0)
    end.
    + reflexivity.
    + unfold obtained, slab_took. cbn. rewrite Hmf. reflexivity.
    + exact Hm.
    + rewrite length_replicate. lia.
    + rewrite take_0. constructor.
  - unfold released, obtained. cbn. rewrite app_nil_r.
    repeat split; lia.
Qed.

Lemma create_local_ring_failure_witness :
  exists k',
    qmempool_create 16 64 32 1 0
      (kernel0 slab_100 [false; false; false; false; true] 3)
    = Fatal NULL_DEREF k' /\
    slab_got k' = [] ++ (Z.of_nat <$> seq 100 32) /\
    slab_freed k' = [] /\
    heap_objs k' = 0 + 2 /\
    ring_objs k' = 0 + 1.
Proof.
  apply (create_local_ring_failure 16 64 32 1 0 (Z.of_nat <$> seq 100 32)
           (Z.of_nat <$> seq 132 8) 1 []
           (kernel0 slab_100 [false; false; false; false; true] 3)).
  - concrete_config.
  - reflexivity.
  - reflexivity.
  - concrete_nonnull.
  - reflexivity.
  - vm_compute. lia.
Defined.
